(** * LTV service: a validation-and-access layer in front of a key-value store

    Shallow embedding of [src/12/ltv_service.py] and
    [src/12/ltv_service_api.py], followed by the properties the
    specification states about them.

    Python integers are unbounded, so they are [Z].  A Python [str] is a
    [string] whose characters are read as the code points U+0000..U+00FF.
    Objects are records of their attributes; a method is a computation in
    a state-and-exception monad over the object it is called on, and the
    functions of the public surface are computations over the world
    outside the process: the store, the calls made to it and the log. *)

From Stdlib Require Import ZArith String Ascii List Bool Lia.
From stdpp Require Import base option list strings gmap.

Local Open Scope string_scope.
Local Open Scope Z_scope.

(** ** Exceptions

    One constructor per exception class that either file defines or can
    meet, identified by its class name.  The payload is the constructor
    argument; where the source passes [str(n)] or an f-string around an
    integer, the integer itself is kept. *)
Inductive exn : Type :=
| ClientOptionExists (option : string)
| ClientConnectError
| ClientHandlerUnavailable          (* ltv_service.py only *)
| AerospikeClientUnavailable        (* ltv_service_api.py only *)
| WrongNumberFormat (error_message : string)
| WrongCustomerID (customer_id : Z)
| WrongLTV (given : Z)
| AttributeError                    (* built-in: attribute of None *)
| AssertionError                    (* built-in: failed assert *)
| RecordNotFound                    (* aerospike.exception.RecordNotFound *)
| AerospikeClientError.             (* aerospike.exception.ClientError *)

(** The outcome of a call: a returned value or a raised exception. *)
Inductive result (A : Type) : Type :=
| Return (a : A)
| Raise (e : exn).
Arguments Return {A} a.
Arguments Raise {A} e.

(** ** State and exception monad

    A computation over a mutable state [S].  The state reached when an
    exception is raised is kept: Python does not roll back mutations. *)
Definition M (S A : Type) : Type := S -> result A * S.

Definition ret {S A} (a : A) : M S A := fun s => (Return a, s).

Definition raise {S A} (e : exn) : M S A := fun s => (Raise e, s).

Definition bind {S A B} (m : M S A) (k : A -> M S B) : M S B :=
  fun s => match m s with
           | (Return a, s') => k a s'
           | (Raise e, s') => (Raise e, s')
           end.

Definition get {S} : M S S := fun s => (Return s, s).

Definition put_state {S} (s : S) : M S unit := fun _ => (Return tt, s).

Definition modify {S} (f : S -> S) : M S unit := fun s => (Return tt, f s).

(** A pure call that may raise, run inside a stateful computation. *)
Definition lift {S A} (r : result A) : M S A := fun s => (r, s).

(** [try: body except ...: handler].  [handler e] is [None] when no except
    clause matches [e], in which case [e] propagates. *)
Definition try_except {S A} (body : M S A) (handler : exn -> option (M S A)) : M S A :=
  fun s => match body s with
           | (Return a, s') => (Return a, s')
           | (Raise e, s') =>
               match handler e with
               | Some h => h s'
               | None => (Raise e, s')
               end
           end.

(** A block that owns a local variable of type [L]: the body runs over the
    pair of the outer state and the local, which is dropped at the end. *)
Definition with_local {S L A} (init : L) (body : M (S * L) A) : M S A :=
  fun s => let '(r, (s', _)) := body (s, init) in (r, s').

Definition outer {S L A} (m : M S A) : M (S * L) A :=
  fun sl => let '(r, s') := m (fst sl) in (r, (s', snd sl)).

Definition get_local {S L} : M (S * L) L := fun sl => (Return (snd sl), sl).

Definition set_local {S L} (l : L) : M (S * L) unit := fun sl => (Return tt, (fst sl, l)).

Declare Scope py_scope.
Delimit Scope py_scope with py.
Notation "x <- m ;; k" := (bind m (fun x => k))
  (at level 100, m at next level, k at level 200, right associativity) : py_scope.
Notation "m ;; k" := (bind m (fun _ => k))
  (at level 100, k at level 200, right associativity) : py_scope.
Local Open Scope py_scope.

(** [functools.reduce(f, iterable, initial)] with an effectful [f]. *)
Fixpoint reduce {S A B} (f : A -> B -> M S A) (iterable : list B) (initial : A) : M S A :=
  match iterable with
  | [] => ret initial
  | x :: rest => acc <- f initial x ;; reduce f rest acc
  end.

(** ** Python built-ins used by the source *)

(** Truth value of a [str]: false exactly for the empty string. *)
Definition str_bool (s : string) : bool :=
  match s with
  | EmptyString => false
  | String _ _ => true
  end.

(** [str.isprintable] on one code point below U+0100: the Unicode
    categories Other and Separator are not printable, the ASCII space
    excepted.  Below U+0100 those are the controls U+0000..U+001F and
    U+007F..U+009F, the no-break space U+00A0 and the soft hyphen U+00AD. *)
Definition char_isprintable (c : ascii) : bool :=
  let n := N_of_ascii c in
  (((32 <=? n) && (n <? 127)) || ((161 <=? n) && negb (n =? 173)))%N.

(** [str.isprintable]: every character is printable; true for the empty
    string. *)
Fixpoint str_isprintable (s : string) : bool :=
  match s with
  | EmptyString => true
  | String c rest => char_isprintable c && str_isprintable rest
  end.

(** Truth value of a bound method object such as [self.is_available]
    written without the call parentheses: an object without [__bool__] or
    [__len__] is always true. *)
Definition method_bool {A} (method : A) : bool := true.

(** Values of type [Any] that a client configuration holds: the scalars,
    the host list and the policy dictionary that [get_client_settings]
    builds. *)
Inductive Any : Type :=
| PyInt (n : Z)
| PyStr (s : string)
| PyHosts (hosts : list (string * Z))
| PyPolicies (policies : list (string * Z)).

(** [str.isspace] on one code point below U+0100: the ASCII controls
    U+0009..U+000D and U+001C..U+001F, the space, and beyond ASCII the
    next-line control U+0085 and the no-break space U+00A0. *)
Definition char_isspace (c : ascii) : bool :=
  let n := N_of_ascii c in
  (((9 <=? n) && (n <=? 13)) || ((28 <=? n) && (n <=? 32)) || (n =? 133) || (n =? 160))%N.

(** [str.strip()]: leading and trailing whitespace removed. *)
Fixpoint str_lstrip (s : string) : string :=
  match s with
  | EmptyString => EmptyString
  | String ch rest => if char_isspace ch then str_lstrip rest else s
  end.

Fixpoint str_rstrip (s : string) : string :=
  match s with
  | EmptyString => EmptyString
  | String ch rest =>
      match str_rstrip rest with
      | EmptyString => if char_isspace ch then EmptyString else String ch EmptyString
      | kept => String ch kept
      end
  end.

Definition str_strip (s : string) : string := str_rstrip (str_lstrip s).

(** [str.split(sep)] for a separator of one character: the pieces between
    the separators, empty pieces included; never an empty list. *)
Fixpoint str_split (sep : ascii) (s : string) : list string :=
  match s with
  | EmptyString => [EmptyString]
  | String ch rest =>
      if decide (ch = sep) then EmptyString :: str_split sep rest
      else match str_split sep rest with
           | piece :: pieces => String ch piece :: pieces
           | [] => [String ch EmptyString]
           end
  end.

(** [os.getenv(key, default)] over the process environment. *)
Definition getenv (environ : gmap string string) (key default_ : string) : string :=
  default default_ (environ !! key).

(** The built-in errors that reading the settings can raise. *)
Inductive settings_error : Type :=
| IndexError
| ValueError.

(** [l[n]], raising IndexError out of range. *)
Definition list_index {A} (l : list A) (n : nat) : settings_error + A :=
  match l !! n with
  | Some x => inr x
  | None => inl IndexError
  end.

(** ** The external store

    The [aerospike] package is not part of the repository.  Its handle,
    its three calls and the records they act on are modelled from the
    store boundary the specification describes. *)

(** Modelled from the spec: a key is the triple (namespace, collection,
    id). *)
Definition Key : Type := string * string * Z.

(** Modelled from the spec: the record fields used are [phone] (string)
    and [ltv] (integer); either may be absent from a stored record, and a
    stored [ltv] may break the non-negative invariant.  The dictionary
    [{"phone": p, "ltv": v}] is the record with both fields present, and
    [bins.get("ltv")] is the projection [bin_ltv], which the source
    annotates as [Optional[int]]. *)
Record Bins : Type := mkBins {
  bin_phone : option string;
  bin_ltv : option Z
}.

(** Modelled from the spec: the store holds at most one record per key.
    It is kept as an association list in scan order, the order in which
    a secondary-index query returns matching records; the specification
    leaves that order open, and every order is some list. *)
Definition Store : Type := list (Key * Bins).

(** Modelled from the spec: put(key, fields) overwrites any existing
    record at that key, and creates the record otherwise. *)
Fixpoint store_put (key : Key) (bins : Bins) (s : Store) : Store :=
  match s with
  | [] => [(key, bins)]
  | (k, b) :: rest =>
      if decide (k = key) then (key, bins) :: rest
      else (k, b) :: store_put key bins rest
  end.

(** Modelled from the spec: the record stored at a key, if any. *)
Fixpoint store_get (key : Key) (s : Store) : option Bins :=
  match s with
  | [] => None
  | (k, b) :: rest => if decide (k = key) then Some b else store_get key rest
  end.

(** Modelled from the spec: select(key, field-list) and
    query(..).select(field-list) return only the listed fields. *)
Definition project (fields : list string) (b : Bins) : Bins :=
  {| bin_phone := if decide ("phone" ∈ fields) then bin_phone b else None;
     bin_ltv := if decide ("ltv" ∈ fields) then bin_ltv b else None |}.

(** Modelled from the spec: the equality predicate of a secondary-index
    query, [aerospike.predicates.equals(bin, value)] with a string
    value. *)
Inductive predicate : Type :=
| equals (bin : string) (val : string).

Definition predicate_holds (p : predicate) (b : Bins) : bool :=
  match p with
  | equals bin val =>
      if decide (bin = "phone") then bool_decide (bin_phone b = Some val)
      else false
  end.

(** Modelled from the spec: a query over one namespace and collection,
    built up by [select] and [where] before it is run. *)
Record Query : Type := mkQuery {
  q_namespace : string;
  q_set : string;
  q_select : list string;
  q_where : option predicate
}.

(** Record metadata, which the source receives and ignores. *)
Definition Meta : Type := unit.

(** The store calls a handle can make, as they appear on the wire. *)
Inductive store_call : Type :=
| call_put (key : Key) (bins : Bins)
| call_select (key : Key) (fields : list string)
| call_query (q : Query).

(** Messages passed to [logging.error], one constructor per f-string. *)
Inductive log_record : Type :=
| error_nonexist_ltv_customer (customer_id : Z)
| error_nonexistent_customer (customer_id : Z)
| error_broken_ltv_customer (ltv : option Z) (customer_id : Z)
| error_phone_not_found (phone_number : string)
| error_nonexist_ltv_phone (phone_number : string)
| error_broken_ltv_phone (ltv : Z) (phone_number : string).

(** What lies outside the process: the store contents, the calls made to
    it so far (oldest first) and the error log. *)
Record World : Type := mkWorld {
  store : Store;
  calls : list store_call;
  log : list log_record
}.

Definition logging_error (r : log_record) : M World unit :=
  modify (fun w => {| store := store w; calls := calls w; log := log w ++ [r] |}).

Definition record_call (c : store_call) : M World unit :=
  modify (fun w => {| store := store w; calls := calls w ++ [c]; log := log w |}).

(** Modelled from the spec: the store client handle.  [connected] is what
    [is_connected()] reports; [close()] clears it. *)
Record aerospike_Client : Type := mk_aerospike_Client {
  connected : bool
}.

Definition is_connected (h : aerospike_Client) : bool := connected h.

Definition aerospike_close (h : aerospike_Client) : aerospike_Client :=
  {| connected := false |}.

(** Modelled from the spec: [aerospike.client(config).connect()].  Whether
    the cluster can be reached is decided outside the process, hence the
    argument [reachable]. *)
Definition aerospike_connect (config : gmap string Any) (reachable : bool)
  : result aerospike_Client :=
  if reachable then Return {| connected := true |} else Raise AerospikeClientError.

(** Modelled from the spec: [handle.put(key, bins)]. *)
Definition aerospike_put (h : aerospike_Client) (key : Key) (bins : Bins) : M World unit :=
  record_call (call_put key bins) ;;
  modify (fun w => {| store := store_put key bins (store w); calls := calls w; log := log w |}).

(** Modelled from the spec: [handle.select(key, fields)] returns the
    triple (key, meta, bins) and raises [RecordNotFound] when the store
    has no such key. *)
Definition aerospike_select (h : aerospike_Client) (key : Key) (fields : list string)
  : M World (Key * Meta * Bins) :=
  record_call (call_select key fields) ;;
  w <- get ;;
  match store_get key (store w) with
  | Some b => ret (key, tt, project fields b)
  | None => raise RecordNotFound
  end.

(** Modelled from the spec: [handle.query(namespace, set)], then
    [query.select(field)] and [query.where(predicate)], which only build
    the query. *)
Definition aerospike_query (h : aerospike_Client) (namespace set_ : string) : Query :=
  {| q_namespace := namespace; q_set := set_; q_select := []; q_where := None |}.

Definition query_select (q : Query) (field : string) : Query :=
  {| q_namespace := q_namespace q; q_set := q_set q;
     q_select := q_select q ++ [field]; q_where := q_where q |}.

Definition query_where (q : Query) (p : predicate) : Query :=
  {| q_namespace := q_namespace q; q_set := q_set q;
     q_select := q_select q; q_where := Some p |}.

Definition query_matches (q : Query) (kb : Key * Bins) : bool :=
  let '((ns, set_, _), b) := kb in
  bool_decide (ns = q_namespace q) && bool_decide (set_ = q_set q) &&
  match q_where q with
  | Some p => predicate_holds p b
  | None => true
  end.

(** Modelled from the spec: [query.results()] runs the query and returns
    the matching records in scan order, each as (key, meta, bins) with the
    selected fields. *)
Definition query_results (q : Query) : M World (list (Key * Meta * Bins)) :=
  record_call (call_query q) ;;
  w <- get ;;
  ret (map (fun kb => (fst kb, tt, project (q_select q) (snd kb)))
           (filter (fun kb => query_matches q kb = true) (store w))).

(** ** Objects of the service

    Both files declare the same classes with the same attributes; the
    methods follow per file. *)

Record Client : Type := mkClient {
  _config : gmap string Any;
  _client : option aerospike_Client
}.

(** A phone policy is an object with a [check] method. *)
Record PhonePolicy : Type := mkPhonePolicy {
  check : string -> bool * string
}.

Record PhoneNumber : Type := mkPhoneNumber { phone : string }.

Record CustomerID : Type := mkCustomerID { id : Z }.

Record LTV : Type := mkLTV { ltv : Z }.

(** The two module-level constants read from the environment when the
    module is imported, [LTV_SERVICE_NAMESPACE] and [LTV_SERVICE_SET]. *)
Class Environ : Type := mkEnviron {
  NAMESPACE : string;
  SET : string
}.

(** A method called on an object from a computation over another state.
    Used for methods that only read the object, such as the [handler]
    property: the object is left as it was. *)
Definition call_on {S A} (obj : Client) (method : M Client A) : M S A :=
  fun s => (fst (method obj), s).

(** [obj.is_connected()] where [obj] may be [None]. *)
Definition opt_is_connected {S} (obj : option aerospike_Client) : M S bool :=
  match obj with
  | Some h => ret (is_connected h)
  | None => raise AttributeError
  end.

(** [a and b] with [b] evaluated only when [a] is true. *)
Definition py_and {S} (a : bool) (b : M S bool) : M S bool :=
  if a then b else ret false.

(** ** src/12/ltv_service.py *)
Module ltv_service.

(** [Client.__init__]: [config or {}] is [config] itself unless it is
    empty, and then it is a fresh empty dictionary. *)
Definition Client__init__ (config : gmap string Any) : Client :=
  {| _config := config; _client := None |}.

Definition handler : M Client aerospike_Client :=
  self <- get ;;
  match _client self with
  | Some h => if is_connected h then ret h else raise ClientHandlerUnavailable
  | None => raise ClientHandlerUnavailable
  end.

Definition with_option (option : string) (value : Any) : M Client Client :=
  self <- get ;;
  match _config self !! option with
  | Some _ => raise (ClientOptionExists option)
  | None =>
      put_state {| _config := <[option := value]> (_config self);
                   _client := _client self |} ;;
      get
  end.

(** [options.items()] is the list of the dictionary's pairs in insertion
    order. *)
Definition with_options (options : list (string * Any)) : M Client Client :=
  self <- get ;;
  reduce (fun _ option_kv => with_option (fst option_kv) (snd option_kv)) options self.

Definition connect (reachable : bool) : M Client Client :=
  try_except
    (self <- get ;;
     h <- lift (aerospike_connect (_config self) reachable) ;;
     put_state {| _config := _config self; _client := Some h |} ;;
     get)
    (fun exc => match exc with
                | AerospikeClientError => Some (raise ClientConnectError)
                | _ => None
                end).

Definition is_available : M Client bool :=
  self <- get ;;
  ret (match _client self with Some _ => true | None => false end).

Definition is_closed : M Client bool :=
  self <- get ;;
  available <- is_available ;;
  if negb available then raise ClientHandlerUnavailable
  else
    c <- py_and (method_bool is_available) (opt_is_connected (_client self)) ;;
    if c then ret false else ret true.

Definition close : M Client unit :=
  self <- get ;;
  c <- py_and (method_bool is_available) (opt_is_connected (_client self)) ;;
  if c then
    put_state {| _config := _config self;
                 _client := aerospike_close <$> _client self |}
  else ret tt.

Definition NonEmptyPhone : PhonePolicy :=
  {| check phone :=
       if str_bool phone then (true, EmptyString)
       else (false, "empty phone number") |}.

Definition OnlyPrintablePhone : PhonePolicy :=
  {| check phone :=
       if str_isprintable phone then (true, EmptyString)
       else (false, "non-printable characters in phone number") |}.

(** The loop of [PhonePolicyPipeline.check] over [self._policies]. *)
Fixpoint PhonePolicyPipeline_check (policies : list PhonePolicy) (phone : string)
  : bool * string :=
  match policies with
  | [] => (true, EmptyString)
  | policy :: rest =>
      let '(result_, error_message) := check policy phone in
      if negb result_ then (result_, error_message)
      else PhonePolicyPipeline_check rest phone
  end.

Definition PhonePolicyPipeline (policy : PhonePolicy) (policies : list PhonePolicy)
  : PhonePolicy :=
  {| check := PhonePolicyPipeline_check (policy :: policies) |}.

Definition PhoneNumber__init__ (phone : string) (policy : PhonePolicy)
  : result PhoneNumber :=
  let '(valid_phone, error_message) := check policy phone in
  if negb valid_phone then Raise (WrongNumberFormat error_message)
  else Return {| phone := phone |}.

Definition CustomerID__init__ (customer_id : Z) : result CustomerID :=
  if customer_id <? 1 then Raise (WrongCustomerID customer_id)
  else Return {| id := customer_id |}.

Definition LTV__init__ (ltv : Z) : result LTV :=
  if ltv <? 0 then Raise (WrongLTV ltv)
  else Return {| ltv := ltv |}.

Definition _add_customer (client : Client) (namespace set_ : string)
    (customer_id : CustomerID) (phone_number : PhoneNumber) (lifetime_value : LTV)
  : M World unit :=
  let key := (namespace, set_, id customer_id) in
  let bins := {| bin_phone := Some (phone phone_number);
                 bin_ltv := Some (ltv lifetime_value) |} in
  h <- call_on client handler ;;
  aerospike_put h key bins.

(** The local [ltv] is declared before the [try] because the handler of
    [WrongLTV] reads it. *)
Definition _get_ltv_by_id (client : Client) (namespace set_ : string)
    (customer_id : CustomerID) : M World (option LTV) :=
  let key := (namespace, set_, id customer_id) in
  with_local (None : option Z)
    (try_except
       (h <- call_on client handler ;;
        r <- outer (aerospike_select h key ["ltv"]) ;;
        let '(_, _, bins) := r in
        set_local (bin_ltv bins) ;;
        ltv <- get_local ;;
        match ltv with
        | None =>
            outer (logging_error (error_nonexist_ltv_customer (id customer_id))) ;;
            ret None
        | Some n => v <- lift (LTV__init__ n) ;; ret (Some v)
        end)
       (fun exc =>
          match exc with
          | RecordNotFound =>
              Some (outer (logging_error (error_nonexistent_customer (id customer_id))) ;;
                    ret None)
          | WrongLTV _ =>
              Some (ltv <- get_local ;;
                    outer (logging_error (error_broken_ltv_customer ltv (id customer_id))) ;;
                    ret None)
          | _ => None
          end)).

Definition _get_ltv_by_phone (client : Client) (namespace set_ : string)
    (phone_number : PhoneNumber) : M World (option LTV) :=
  h <- call_on client handler ;;
  let query := aerospike_query h namespace set_ in
  let query := query_select query "ltv" in
  let query := query_where query (equals "phone" (phone phone_number)) in
  results <- query_results query ;;
  match results with
  | [] =>
      logging_error (error_phone_not_found (phone phone_number)) ;;
      ret None
  | (_, _, bins) :: _ =>
      match bin_ltv bins with
      | None =>
          logging_error (error_nonexist_ltv_phone (phone phone_number)) ;;
          ret None
      | Some n =>
          try_except
            (v <- lift (LTV__init__ n) ;; ret (Some v))
            (fun exc =>
               match exc with
               | WrongLTV _ =>
                   Some (logging_error (error_broken_ltv_phone n (phone phone_number)) ;;
                         ret None)
               | _ => None
               end)
      end
  end.

Definition PHONE_CHECK_POLICY : PhonePolicy :=
  PhonePolicyPipeline NonEmptyPhone [OnlyPrintablePhone].

Definition add_customer `{Environ} (client : Client) (customer_id : Z)
    (phone_number : string) (lifetime_value : Z) : M World unit :=
  phone <- lift (PhoneNumber__init__ phone_number PHONE_CHECK_POLICY) ;;
  id_ <- lift (CustomerID__init__ customer_id) ;;
  ltv <- lift (LTV__init__ lifetime_value) ;;
  _add_customer client NAMESPACE SET id_ phone ltv.

Definition get_ltv_by_id `{Environ} (client : Client) (customer_id : Z)
  : M World (option Z) :=
  id_ <- lift (CustomerID__init__ customer_id) ;;
  r <- _get_ltv_by_id client NAMESPACE SET id_ ;;
  ret (match r with Some v => Some (ltv v) | None => None end).

Definition get_ltv_by_phone `{Environ} (client : Client) (phone_number : string)
  : M World (option Z) :=
  phone <- lift (PhoneNumber__init__ phone_number PHONE_CHECK_POLICY) ;;
  r <- _get_ltv_by_phone client NAMESPACE SET phone ;;
  ret (match r with Some v => Some (ltv v) | None => None end).

(** [get_client_settings].  The built-in [int] is taken as it comes: a
    function from the text to the integer, or to nothing where [int]
    raises ValueError. *)
Section settings.
Variable int : string -> option Z.

(** One element of the list comprehension: the tuple
    [(h.split(":")[0], int(h.split(":")[1]))], evaluated left to right. *)
Definition host_entry (h : string) : settings_error + (string * Z) :=
  match list_index (str_split ":" h) 0 with
  | inl e => inl e
  | inr host =>
      match list_index (str_split ":" h) 1 with
      | inl e => inl e
      | inr port_text =>
          match int port_text with
          | Some port => inr (host, port)
          | None => inl ValueError
          end
      end
  end.

(** The list comprehension over the entries, in order. *)
Fixpoint host_entries (hs : list string) : settings_error + list (string * Z) :=
  match hs with
  | [] => inr []
  | h :: rest =>
      match host_entry h with
      | inl e => inl e
      | inr entry =>
          match host_entries rest with
          | inl e => inl e
          | inr entries => inr (entry :: entries)
          end
      end
  end.

Definition get_client_settings (environ : gmap string string)
  : settings_error + gmap string Any :=
  match host_entries
          (str_split "," (str_strip (getenv environ "LTV_SERVICE_HOSTS" "127.0.0.1:3000")))
  with
  | inl e => inl e
  | inr hosts =>
      match int (str_strip (getenv environ "LTV_SERVICE_TIMEOUT" "1000")) with
      | Some timeout =>
          inr (<["policies" := PyPolicies [("timeout", timeout)]]>
                 (<["hosts" := PyHosts hosts]> ∅))
      | None => inl ValueError
      end
  end.
End settings.

(** The constants [NAMESPACE] and [SET] as the module computes them from
    the environment when it is imported. *)
Definition module_constants (environ : gmap string string) : Environ :=
  {| NAMESPACE := str_strip (getenv environ "LTV_SERVICE_NAMESPACE" "test");
     SET := str_strip (getenv environ "LTV_SERVICE_SET" "customers") |}.

End ltv_service.

(** ** src/12/ltv_service_api.py *)
Module ltv_service_api.

(** [Client.__init__]: [config or {}] is [config] itself unless it is
    empty, and then it is a fresh empty dictionary. *)
Definition Client__init__ (config : gmap string Any) : Client :=
  {| _config := config; _client := None |}.

Definition with_option (option : string) (value : Any) : M Client Client :=
  self <- get ;;
  match _config self !! option with
  | Some _ => raise (ClientOptionExists option)
  | None =>
      put_state {| _config := <[option := value]> (_config self);
                   _client := _client self |} ;;
      get
  end.

(** [options.items()] is the list of the dictionary's pairs in insertion
    order. *)
Definition with_options (options : list (string * Any)) : M Client Client :=
  self <- get ;;
  reduce (fun _ option_kv => with_option (fst option_kv) (snd option_kv)) options self.

Definition is_available : M Client bool :=
  self <- get ;;
  ret (match _client self with Some _ => true | None => false end).

Definition is_closed : M Client bool :=
  self <- get ;;
  available <- is_available ;;
  if negb available then raise AerospikeClientUnavailable
  else
    c <- py_and (method_bool is_available) (opt_is_connected (_client self)) ;;
    if c then ret false else ret true.

(** The property returns [self._client], which is a handle whenever
    [is_closed] has returned: [is_closed] raises when it is [None]. *)
Definition handler : M Client aerospike_Client :=
  self <- get ;;
  closed <- is_closed ;;
  if negb closed then
    match _client self with
    | Some h => ret h
    | None => raise AttributeError
    end
  else raise AerospikeClientUnavailable.

Definition connect (reachable : bool) : M Client Client :=
  try_except
    (self <- get ;;
     available <- is_available ;;
     if negb available then
       h <- lift (aerospike_connect (_config self) reachable) ;;
       put_state {| _config := _config self; _client := Some h |} ;;
       get
     else
       c <- opt_is_connected (_client self) ;;
       if c then get else raise AerospikeClientUnavailable)
    (fun exc => match exc with
                | AerospikeClientError => Some (raise ClientConnectError)
                | _ => None
                end).

Definition close : M Client unit :=
  self <- get ;;
  c <- py_and (method_bool is_available) (opt_is_connected (_client self)) ;;
  if c then
    put_state {| _config := _config self;
                 _client := aerospike_close <$> _client self |}
  else ret tt.

Definition NonEmptyPhone : PhonePolicy :=
  {| check phone :=
       if str_bool phone then (true, EmptyString)
       else (false, "empty phone number") |}.

Definition OnlyPrintablePhone : PhonePolicy :=
  {| check phone :=
       if str_isprintable phone then (true, EmptyString)
       else (false, "non-printable characters in phone number") |}.

(** The loop of [PhonePolicyPipeline.check] over [self._policies]. *)
Fixpoint PhonePolicyPipeline_check (policies : list PhonePolicy) (phone : string)
  : bool * string :=
  match policies with
  | [] => (true, EmptyString)
  | policy :: rest =>
      let '(result_, error_message) := check policy phone in
      if negb result_ then (result_, error_message)
      else PhonePolicyPipeline_check rest phone
  end.

Definition PhonePolicyPipeline (policy : PhonePolicy) (policies : list PhonePolicy)
  : PhonePolicy :=
  {| check := PhonePolicyPipeline_check (policy :: policies) |}.

Definition PhoneNumber__init__ (phone : string) (policy : PhonePolicy)
  : result PhoneNumber :=
  let '(valid_phone, error_message) := check policy phone in
  if negb valid_phone then Raise (WrongNumberFormat error_message)
  else Return {| phone := phone |}.

Definition CustomerID__init__ (customer_id : Z) : result CustomerID :=
  if customer_id <? 1 then Raise (WrongCustomerID customer_id)
  else Return {| id := customer_id |}.

Definition LTV__init__ (ltv : Z) : result LTV :=
  if ltv <? 0 then Raise (WrongLTV ltv)
  else Return {| ltv := ltv |}.

Definition _add_customer (client : Client) (namespace set_ : string)
    (customer_id : CustomerID) (phone_number : PhoneNumber) (lifetime_value : LTV)
  : M World CustomerID :=
  let key := (namespace, set_, id customer_id) in
  let bins := {| bin_phone := Some (phone phone_number);
                 bin_ltv := Some (ltv lifetime_value) |} in
  h <- call_on client handler ;;
  aerospike_put h key bins ;;
  ret customer_id.

(** The local [ltv] is declared before the [try] because the handler of
    [WrongLTV] reads it. *)
Definition _get_ltv_by_id (client : Client) (namespace set_ : string)
    (customer_id : CustomerID) : M World (option LTV) :=
  let key := (namespace, set_, id customer_id) in
  with_local (None : option Z)
    (try_except
       (h <- call_on client handler ;;
        r <- outer (aerospike_select h key ["ltv"]) ;;
        let '(_, _, bins) := r in
        set_local (bin_ltv bins) ;;
        ltv <- get_local ;;
        match ltv with
        | None =>
            outer (logging_error (error_nonexist_ltv_customer (id customer_id))) ;;
            ret None
        | Some n => v <- lift (LTV__init__ n) ;; ret (Some v)
        end)
       (fun exc =>
          match exc with
          | RecordNotFound =>
              Some (outer (logging_error (error_nonexistent_customer (id customer_id))) ;;
                    ret None)
          | WrongLTV _ =>
              Some (ltv <- get_local ;;
                    outer (logging_error (error_broken_ltv_customer ltv (id customer_id))) ;;
                    ret None)
          | _ => None
          end)).

Definition _get_ltv_by_phone (client : Client) (namespace set_ : string)
    (phone_number : PhoneNumber) : M World (option LTV) :=
  h <- call_on client handler ;;
  let query := aerospike_query h namespace set_ in
  let query := query_select query "ltv" in
  let query := query_where query (equals "phone" (phone phone_number)) in
  results <- query_results query ;;
  match results with
  | [] =>
      logging_error (error_phone_not_found (phone phone_number)) ;;
      ret None
  | (_, _, bins) :: _ =>
      match bin_ltv bins with
      | None =>
          logging_error (error_nonexist_ltv_phone (phone phone_number)) ;;
          ret None
      | Some n =>
          try_except
            (v <- lift (LTV__init__ n) ;; ret (Some v))
            (fun exc =>
               match exc with
               | WrongLTV _ =>
                   Some (logging_error (error_broken_ltv_phone n (phone phone_number)) ;;
                         ret None)
               | _ => None
               end)
      end
  end.

Definition PHONE_CHECK_POLICY : PhonePolicy :=
  PhonePolicyPipeline NonEmptyPhone [OnlyPrintablePhone].

Definition add_customer `{Environ} (client : Client) (customer_id : Z)
    (phone_number : string) (lifetime_value : Z) : M World Z :=
  phone <- lift (PhoneNumber__init__ phone_number PHONE_CHECK_POLICY) ;;
  id_ <- lift (CustomerID__init__ customer_id) ;;
  ltv <- lift (LTV__init__ lifetime_value) ;;
  r <- _add_customer client NAMESPACE SET id_ phone ltv ;;
  let result_ := id r in
  if negb (result_ =? customer_id) then raise AssertionError
  else ret result_.

Definition get_ltv_by_id `{Environ} (client : Client) (customer_id : Z)
  : M World (option Z) :=
  id_ <- lift (CustomerID__init__ customer_id) ;;
  r <- _get_ltv_by_id client NAMESPACE SET id_ ;;
  ret (match r with Some v => Some (ltv v) | None => None end).

Definition get_ltv_by_phone `{Environ} (client : Client) (phone_number : string)
  : M World (option Z) :=
  phone <- lift (PhoneNumber__init__ phone_number PHONE_CHECK_POLICY) ;;
  r <- _get_ltv_by_phone client NAMESPACE SET phone ;;
  ret (match r with Some v => Some (ltv v) | None => None end).

(** [get_client_settings].  The built-in [int] is taken as it comes: a
    function from the text to the integer, or to nothing where [int]
    raises ValueError. *)
Section settings.
Variable int : string -> option Z.

(** One element of the list comprehension: the tuple
    [(h.split(":")[0], int(h.split(":")[1]))], evaluated left to right. *)
Definition host_entry (h : string) : settings_error + (string * Z) :=
  match list_index (str_split ":" h) 0 with
  | inl e => inl e
  | inr host =>
      match list_index (str_split ":" h) 1 with
      | inl e => inl e
      | inr port_text =>
          match int port_text with
          | Some port => inr (host, port)
          | None => inl ValueError
          end
      end
  end.

(** The list comprehension over the entries, in order. *)
Fixpoint host_entries (hs : list string) : settings_error + list (string * Z) :=
  match hs with
  | [] => inr []
  | h :: rest =>
      match host_entry h with
      | inl e => inl e
      | inr entry =>
          match host_entries rest with
          | inl e => inl e
          | inr entries => inr (entry :: entries)
          end
      end
  end.

Definition get_client_settings (environ : gmap string string)
  : settings_error + gmap string Any :=
  match host_entries
          (str_split "," (str_strip (getenv environ "LTV_SERVICE_HOSTS" "127.0.0.1:3000")))
  with
  | inl e => inl e
  | inr hosts =>
      match int (str_strip (getenv environ "LTV_SERVICE_TIMEOUT" "1000")) with
      | Some timeout =>
          inr (<["policies" := PyPolicies [("timeout", timeout)]]>
                 (<["hosts" := PyHosts hosts]> ∅))
      | None => inl ValueError
      end
  end.
End settings.

(** The constants [NAMESPACE] and [SET] as the module computes them from
    the environment when it is imported. *)
Definition module_constants (environ : gmap string string) : Environ :=
  {| NAMESPACE := str_strip (getenv environ "LTV_SERVICE_NAMESPACE" "test");
     SET := str_strip (getenv environ "LTV_SERVICE_SET" "customers") |}.

End ltv_service_api.

(** * Specification vocabulary *)

(** ** Client states *)

(** The client holds a handle that reports itself connected. *)
Definition is_live (c : Client) : bool :=
  match _client c with
  | Some h => is_connected h
  | None => false
  end.

(** The client never connected. *)
Definition never_connected (c : Client) : Prop := _client c = None.

(** The client holds a handle whose connection has dropped or was closed. *)
Definition dropped (c : Client) : Prop :=
  exists h, _client c = Some h /\ is_connected h = false.

(** ** Valid inputs *)

(** The characters of a string, as the specification speaks of them. *)
Definition chars (s : string) : list ascii := list_ascii_of_string s.

(** A phone string that the default policy accepts: non-empty and made
    of printable characters only. *)
Definition valid_phone (p : string) : Prop :=
  p <> EmptyString /\ forall ch, In ch (chars p) -> char_isprintable ch = true.

(** ** The lookups as the specification words them *)

(** A stored lifetime value is returned if it is present and well-formed,
    that is non-negative; otherwise the result is absent. *)
Definition well_formed_ltv (stored : option Z) : option Z :=
  match stored with
  | Some n => if n <? 0 then None else Some n
  | None => None
  end.

(** LookupByID: the [ltv] field of the record at the key built from the
    fixed namespace, the fixed collection and the id. *)
Definition LookupByID `{Environ} (s : Store) (i : Z) : option Z :=
  match store_get (NAMESPACE, SET, i) s with
  | Some b => well_formed_ltv (bin_ltv b)
  | None => None
  end.

(** The records of the fixed namespace and collection whose [phone] field
    equals [p], in scan order. *)
Definition records_with_phone `{Environ} (s : Store) (p : string) : list (Key * Bins) :=
  filter (fun kb => kb.1.1.1 = NAMESPACE /\ kb.1.1.2 = SET /\ bin_phone kb.2 = Some p) s.

(** LookupByPhone: the first matching record, if any, handled as in
    LookupByID. *)
Definition LookupByPhone `{Environ} (s : Store) (p : string) : option Z :=
  match records_with_phone s p with
  | [] => None
  | (_, b) :: _ => well_formed_ltv (bin_ltv b)
  end.

(** The query that [_get_ltv_by_phone] has built when it runs it. *)
Definition phone_query `{Environ} (p : string) : Query :=
  {| q_namespace := NAMESPACE; q_set := SET; q_select := ["ltv"];
     q_where := Some (equals "phone" p) |}.

(** The record that [_add_customer] writes. *)
Definition customer_bins (p : string) (v : Z) : Bins :=
  {| bin_phone := Some p; bin_ltv := Some v |}.

(** ** Comparing the two files *)

(** The handler-unavailable error carries a different class name in the
    two files; every other exception class has the same name in both. *)
Definition rename_exn (e : exn) : exn :=
  match e with
  | ClientHandlerUnavailable => AerospikeClientUnavailable
  | _ => e
  end.

Definition rename_raised {A} (o : result A * World) : result A * World :=
  match o with
  | (Raise e, w) => (Raise (rename_exn e), w)
  | (Return a, w) => (Return a, w)
  end.

(** The outcome of a write that returns nothing, seen as the outcome of
    one that returns the id it was given. *)
Definition returning {A} (i : Z) (o : result A * World) : result Z * World :=
  match o with
  | (Return _, w) => (Return i, w)
  | (Raise e, w) => (Raise e, w)
  end.

(** ** Concrete inputs *)

Definition default_environ : Environ := {| NAMESPACE := "test"; SET := "customers" |}.

Definition empty_world : World := {| store := []; calls := []; log := [] |}.

Definition fresh_client : Client := ltv_service.Client__init__ ∅.

Definition live_client : Client :=
  {| _config := ∅; _client := Some {| connected := true |} |}.

Definition closed_client : Client :=
  {| _config := ∅; _client := Some {| connected := false |} |}.

(** A store with one sound record, one without [ltv] and one whose [ltv]
    is negative. *)
Definition anomalous_world : World :=
  {| store := [(("test", "customers", 1), customer_bins "555-0001" 10);
               (("test", "customers", 2), {| bin_phone := Some "555-0002"; bin_ltv := None |});
               (("test", "customers", 3), customer_bins "555-0003" (-5))];
     calls := [];
     log := [] |}.

(** ** Vocabulary for the further properties *)

(** The world after one [put] of the record of customer [i]. *)
Definition after_put `{Environ} (i : Z) (p : string) (v : Z) (w : World) : World :=
  {| store := store_put (NAMESPACE, SET, i) (customer_bins p v) (store w);
     calls := calls w ++ [call_put (NAMESPACE, SET, i) (customer_bins p v)];
     log := log w |}.

(** A policy accepts a string when the first component of its check is
    true. *)
Definition accepts (policy : PhonePolicy) (s : string) : Prop :=
  (check policy s).1 = true.

(** A record of the fixed namespace and collection whose [phone] is [p]. *)
Definition has_phone `{Environ} (p : string) (kb : Key * Bins) : Prop :=
  kb.1.1.1 = NAMESPACE /\ kb.1.1.2 = SET /\ bin_phone kb.2 = Some p.

(** No customer other than [i] has the phone [p]. *)
Definition phone_owned_by `{Environ} (s : Store) (p : string) (i : Z) : Prop :=
  forall kb, kb ∈ records_with_phone s p -> kb.1 = (NAMESPACE, SET, i).

(** The client after its handle was closed. *)
Definition closed_of (c : Client) : Client :=
  {| _config := _config c; _client := Some {| connected := false |} |}.

(** The client after a successful (re)connection. *)
Definition connected_of (c : Client) : Client :=
  {| _config := _config c; _client := Some {| connected := true |} |}.

(** A configuration that already names the hosts. *)
Definition hosts_option : Any := PyHosts [("127.0.0.1", 3000)].

Definition policies_option : Any := PyPolicies [("timeout", 1000)].

Definition configured_client : Client :=
  ltv_service.Client__init__ (<["hosts" := hosts_option]> ∅).

(** ** Vocabulary for the settings *)

(** The string has no occurrence of the character. *)
Definition lacks (sep : ascii) (s : string) : Prop := ~ In sep (chars s).

(** The string is made of whitespace only. *)
Definition all_space (s : string) : Prop :=
  forall ch, In ch (chars s) -> char_isspace ch = true.

(** The string has no whitespace at either end. *)
Definition trimmed (s : string) : Prop := str_strip s = s.

(** An entry of a host list: the host and port it stands for, and the
    text of the port. *)
Definition host_text : Type := (string * Z) * string.

(** The entry is written without commas or colons other than its own, and
    [int] reads its port text as its port. *)
Definition well_formed_entry (int : string -> option Z) (entry : host_text) : Prop :=
  lacks "," entry.1.1 /\ lacks ":" entry.1.1 /\
  lacks "," entry.2 /\ lacks ":" entry.2 /\
  int entry.2 = Some entry.1.2.

(** The text of a host list: the entries [host:port] joined by commas. *)
Definition host_list_text (entries : list host_text) : string :=
  String.concat "," (map (fun entry => entry.1.1 ++ ":" ++ entry.2) entries).

(** A reading of the two port and timeout texts used in the examples. *)
Definition sample_int (text : string) : option Z :=
  if decide (text = "3000") then Some 3000
  else if decide (text = "3001") then Some 3001
  else if decide (text = "1000") then Some 1000
  else None.

(** * Properties *)

(** ** Running computations *)

#[global] Arguments ltv_service.handler : simpl never.
#[global] Arguments ltv_service_api.handler : simpl never.
#[global] Arguments project : simpl never.

Ltac unfold_monad :=
  unfold bind, ret, raise, get, put_state, modify, lift, try_except,
    with_local, outer, get_local, set_local, call_on, py_and,
    opt_is_connected, method_bool.

Ltac run := repeat (unfold_monad; cbn).

Ltac unfold_store_calls :=
  unfold aerospike_put, aerospike_select, query_results, record_call, logging_error.

(** ** Client states *)

Lemma is_live_false (c : Client) :
  is_live c = false <-> never_connected c \/ dropped c.
Proof.
  unfold is_live, never_connected, dropped. split.
  - destruct (_client c) as [h|] eqn:E; [|by left].
    intros Hc. right. by exists h.
  - intros [-> | (h & -> & Hh)]; done.
Qed.

(** ** The store *)

Section store_facts.
Implicit Types (s : Store) (k : Key) (b : Bins).

Lemma store_get_put_eq k b s : store_get k (store_put k b s) = Some b.
Proof.
  induction s as [|[k' b'] s IH]; cbn.
  - by rewrite decide_True.
  - destruct (decide (k' = k)) as [->|Hne]; cbn.
    + by rewrite decide_True.
    + by rewrite decide_False.
Qed.

Lemma store_get_put_ne k k' b s :
  k <> k' -> store_get k' (store_put k b s) = store_get k' s.
Proof.
  intros Hne. induction s as [|[k0 b0] s IH]; cbn.
  - by rewrite decide_False.
  - destruct (decide (k0 = k)) as [->|Hk0]; cbn.
    + by rewrite !decide_False.
    + destruct (decide (k0 = k')); [done | apply IH].
Qed.

Lemma project_ltv b : bin_ltv (project ["ltv"] b) = bin_ltv b.
Proof. unfold project. cbn. rewrite decide_True; [done | set_solver]. Qed.

Lemma well_formed_ltv_nonneg (stored : option Z) (n : Z) :
  well_formed_ltv stored = Some n -> 0 <= n.
Proof.
  destruct stored as [m|]; cbn; [|done].
  destruct (m <? 0) eqn:Hm; [done|].
  intros [= <-]. by apply Z.ltb_ge.
Qed.

Lemma query_matches_phone `{Environ} (p : string) s :
  filter (fun kb => query_matches (phone_query p) kb = true) s
    = records_with_phone s p.
Proof.
  unfold records_with_phone. apply list_filter_iff. intros [[[ns st] i] b].
  unfold query_matches. cbn. rewrite decide_True by done.
  rewrite !andb_true_iff, !bool_decide_eq_true. tauto.
Qed.
End store_facts.

(** ** The handler property *)

Lemma handler_live (c : Client) :
  is_live c = true ->
  exists h, ltv_service.handler c = (Return h, c) /\
            ltv_service_api.handler c = (Return h, c).
Proof.
  unfold is_live, ltv_service.handler, ltv_service_api.handler,
    ltv_service_api.is_closed, ltv_service_api.is_available.
  destruct (_client c) as [h|] eqn:E; [|done].
  intros Hh. exists h. run. rewrite E. run. by rewrite Hh.
Qed.

Lemma handler_not_live (c : Client) :
  is_live c = false ->
  ltv_service.handler c = (Raise ClientHandlerUnavailable, c) /\
  ltv_service_api.handler c = (Raise AerospikeClientUnavailable, c).
Proof.
  unfold is_live, ltv_service.handler, ltv_service_api.handler,
    ltv_service_api.is_closed, ltv_service_api.is_available.
  destruct (_client c) as [h|] eqn:E; run; rewrite E; run.
  - by intros ->.
  - done.
Qed.

(** ** Validated value objects *)

Lemma str_isprintable_chars (s : string) :
  str_isprintable s = true <->
  forall ch, In ch (chars s) -> char_isprintable ch = true.
Proof.
  unfold chars. induction s as [|a s IH]; cbn.
  - split; [intros _ ch [] | done].
  - rewrite andb_true_iff, IH. split.
    + intros [Ha Hs] ch [<-|Hin]; auto.
    + intros Hall. split; [apply Hall; by left | intros ch Hin; apply Hall; by right].
Qed.

Lemma str_isprintable_false (s : string) :
  (exists ch, In ch (chars s) /\ char_isprintable ch = false) ->
  str_isprintable s = false.
Proof.
  intros (ch & Hin & Hch).
  destruct (str_isprintable s) eqn:E; [|done].
  rewrite str_isprintable_chars in E. specialize (E ch Hin). congruence.
Qed.

Lemma str_bool_nonempty (s : string) : str_bool s = true <-> s <> EmptyString.
Proof. destruct s; cbn; split; congruence. Qed.

Lemma valid_phone_checks (p : string) :
  valid_phone p <-> str_bool p = true /\ str_isprintable p = true.
Proof. unfold valid_phone. by rewrite str_bool_nonempty, str_isprintable_chars. Qed.

Lemma valid_phone_555_0100 : valid_phone "555-0100".
Proof. apply valid_phone_checks. split; reflexivity. Qed.

Section value_objects.
Import ltv_service.

(** The default policy reports the first failing check. *)
Lemma PHONE_CHECK_POLICY_check (p : string) :
  check PHONE_CHECK_POLICY p =
    if str_bool p then
      if str_isprintable p then (true, EmptyString)
      else (false, "non-printable characters in phone number")
    else (false, "empty phone number").
Proof. cbn. by destruct (str_bool p), (str_isprintable p). Qed.

Lemma PhoneNumber_valid (p : string) :
  valid_phone p -> PhoneNumber__init__ p PHONE_CHECK_POLICY = Return {| phone := p |}.
Proof.
  rewrite valid_phone_checks. intros [Hne Hpr].
  unfold PhoneNumber__init__. rewrite PHONE_CHECK_POLICY_check.
  by rewrite Hne, Hpr.
Qed.

Lemma PhoneNumber_invalid (p : string) :
  ~ valid_phone p ->
  exists reason, PhoneNumber__init__ p PHONE_CHECK_POLICY = Raise (WrongNumberFormat reason).
Proof.
  rewrite valid_phone_checks. intros Hn.
  unfold PhoneNumber__init__. rewrite PHONE_CHECK_POLICY_check.
  destruct (str_bool p) eqn:Hne; cbn; [|by eexists].
  destruct (str_isprintable p) eqn:Hpr; cbn; [|by eexists].
  by destruct Hn.
Qed.

Lemma PhoneNumber_cases (p : string) :
  (valid_phone p /\ PhoneNumber__init__ p PHONE_CHECK_POLICY = Return {| phone := p |}) \/
  (~ valid_phone p /\
   exists reason, PhoneNumber__init__ p PHONE_CHECK_POLICY = Raise (WrongNumberFormat reason)).
Proof.
  destruct (str_bool p) eqn:Hne, (str_isprintable p) eqn:Hpr.
  1: left; assert (valid_phone p) by (by apply valid_phone_checks);
     split; [done | by apply PhoneNumber_valid].
  all: right; assert (~ valid_phone p)
         by (rewrite valid_phone_checks; intros [? ?]; congruence);
       split; [done | by apply PhoneNumber_invalid].
Qed.

Lemma CustomerID_valid (n : Z) : 1 <= n -> CustomerID__init__ n = Return {| id := n |}.
Proof. intros Hn. unfold CustomerID__init__. by rewrite (proj2 (Z.ltb_ge n 1)). Qed.

Lemma CustomerID_invalid (n : Z) : n < 1 -> CustomerID__init__ n = Raise (WrongCustomerID n).
Proof. intros Hn. unfold CustomerID__init__. by rewrite (proj2 (Z.ltb_lt n 1)). Qed.

Lemma LTV_valid (n : Z) : 0 <= n -> LTV__init__ n = Return {| ltv := n |}.
Proof. intros Hn. unfold LTV__init__. by rewrite (proj2 (Z.ltb_ge n 0)). Qed.

Lemma LTV_invalid (n : Z) : n < 0 -> LTV__init__ n = Raise (WrongLTV n).
Proof. intros Hn. unfold LTV__init__. by rewrite (proj2 (Z.ltb_lt n 0)). Qed.
End value_objects.

Example phone_555_0100 :
  ltv_service.PhoneNumber__init__ "555-0100" ltv_service.PHONE_CHECK_POLICY
    = Return {| phone := "555-0100" |}.
Proof. reflexivity. Qed.

Example phone_with_tab :
  ltv_service.PhoneNumber__init__ (String "009"%char "1") ltv_service.PHONE_CHECK_POLICY
    = Raise (WrongNumberFormat "non-printable characters in phone number").
Proof. reflexivity. Qed.

(** A policy that would fail on every string placed after the two default
    checks is never reached by the empty string: the first failure wins. *)
Example pipeline_stops_at_first_failure :
  check (ltv_service.PhonePolicyPipeline ltv_service.NonEmptyPhone
           [ltv_service.OnlyPrintablePhone; {| check _ := (false, "never reached") |}])
        EmptyString
    = (false, "empty phone number").
Proof. reflexivity. Qed.

(** C3.  Under the default policy, constructing a PhoneNumber from a
    non-empty string of printable characters succeeds and keeps the
    string; the empty string is refused with the reason "empty phone
    number"; a non-empty string that contains a non-printable character is
    refused with the reason "non-printable characters in phone number".
    Emptiness is checked first, so the empty string reports the
    empty-phone reason. *)
Theorem C3_phone_number_construction (s : string) :
  (s <> EmptyString ->
   (forall ch, In ch (chars s) -> char_isprintable ch = true) ->
   ltv_service.PhoneNumber__init__ s ltv_service.PHONE_CHECK_POLICY
     = Return {| phone := s |}) /\
  (s = EmptyString ->
   ltv_service.PhoneNumber__init__ s ltv_service.PHONE_CHECK_POLICY
     = Raise (WrongNumberFormat "empty phone number")) /\
  (s <> EmptyString ->
   (exists ch, In ch (chars s) /\ char_isprintable ch = false) ->
   ltv_service.PhoneNumber__init__ s ltv_service.PHONE_CHECK_POLICY
     = Raise (WrongNumberFormat "non-printable characters in phone number")).
Proof.
  split; [|split].
  - intros Hne Hall. by apply PhoneNumber_valid.
  - by intros ->.
  - intros Hne Hbad. apply str_bool_nonempty in Hne.
    apply str_isprintable_false in Hbad.
    unfold ltv_service.PhoneNumber__init__.
    rewrite PHONE_CHECK_POLICY_check. by rewrite Hne, Hbad.
Qed.

Lemma C3_phone_number_construction_witness :
  ltv_service.PhoneNumber__init__ "555-0100" ltv_service.PHONE_CHECK_POLICY
    = Return {| phone := "555-0100" |} /\
  ltv_service.PhoneNumber__init__ EmptyString ltv_service.PHONE_CHECK_POLICY
    = Raise (WrongNumberFormat "empty phone number") /\
  ltv_service.PhoneNumber__init__ (String "009"%char "1") ltv_service.PHONE_CHECK_POLICY
    = Raise (WrongNumberFormat "non-printable characters in phone number").
Proof.
  split; [|split].
  - apply (proj1 (C3_phone_number_construction "555-0100")).
    + discriminate.
    + intros ch Hin. cbn in Hin.
      repeat (destruct Hin as [<-|Hin]; [reflexivity|]). destruct Hin.
  - apply (proj1 (proj2 (C3_phone_number_construction EmptyString))). reflexivity.
  - apply (proj2 (proj2 (C3_phone_number_construction (String "009"%char "1")))).
    + discriminate.
    + exists "009"%char. split; [left; reflexivity | reflexivity].
Defined.

(** C5.  Constructing CustomerID(n) succeeds for every integer n >= 1 and
    the object's id is n; for every n <= 0 it raises WrongCustomerID. *)
Theorem C5_customer_id_construction (n : Z) :
  (1 <= n ->
   exists o, ltv_service.CustomerID__init__ n = Return o /\ id o = n) /\
  (n <= 0 ->
   ltv_service.CustomerID__init__ n = Raise (WrongCustomerID n)).
Proof.
  split; intros Hn.
  - exists {| id := n |}. split; [by apply CustomerID_valid | done].
  - apply CustomerID_invalid. lia.
Qed.

Lemma C5_customer_id_construction_witness :
  (exists o, ltv_service.CustomerID__init__ 42 = Return o /\ id o = 42) /\
  ltv_service.CustomerID__init__ 0 = Raise (WrongCustomerID 0).
Proof.
  split.
  - apply (proj1 (C5_customer_id_construction 42)). lia.
  - apply (proj2 (C5_customer_id_construction 0)). lia.
Defined.

(** C6.  Constructing LTV(n) succeeds for every integer n >= 0 and the
    object's value is n; for every n < 0 it raises WrongLTV. *)
Theorem C6_ltv_construction (n : Z) :
  (0 <= n ->
   exists o, ltv_service.LTV__init__ n = Return o /\ ltv o = n) /\
  (n < 0 ->
   ltv_service.LTV__init__ n = Raise (WrongLTV n)).
Proof.
  split; intros Hn.
  - exists {| ltv := n |}. split; [by apply LTV_valid | done].
  - by apply LTV_invalid.
Qed.

Lemma C6_ltv_construction_witness :
  (exists o, ltv_service.LTV__init__ 1000 = Return o /\ ltv o = 1000) /\
  ltv_service.LTV__init__ (-1) = Raise (WrongLTV (-1)).
Proof.
  split.
  - apply (proj1 (C6_ltv_construction 1000)). lia.
  - apply (proj2 (C6_ltv_construction (-1))). lia.
Defined.

(** ** Record access in ltv_service.py *)

Section record_access.
Context `{Environ}.
Import ltv_service.
Implicit Types (c : Client) (w : World) (i v : Z) (p : string).

(** On a live connection a valid write is one [put] of the record. *)
Lemma add_customer_live c i p v w :
  is_live c = true -> 1 <= i -> valid_phone p -> 0 <= v ->
  add_customer c i p v w =
    (Return tt,
     {| store := store_put (NAMESPACE, SET, i) (customer_bins p v) (store w);
        calls := calls w ++ [call_put (NAMESPACE, SET, i) (customer_bins p v)];
        log := log w |}).
Proof.
  intros Hc Hi Hp Hv. destruct (handler_live c Hc) as (h & Hh & _).
  unfold add_customer, _add_customer.
  rewrite (PhoneNumber_valid p Hp), (CustomerID_valid i Hi), (LTV_valid v Hv).
  unfold_store_calls. run. rewrite Hh. by run.
Qed.

(** On a live connection a read by a valid id returns what the
    specification's LookupByID gives, after one [select], and leaves
    the store contents alone. *)
Lemma get_ltv_by_id_live c i w :
  is_live c = true -> 1 <= i ->
  exists w', get_ltv_by_id c i w = (Return (LookupByID (store w) i), w') /\
             store w' = store w /\
             calls w' = (calls w ++ [call_select (NAMESPACE, SET, i) ["ltv"]])%list.
Proof.
  intros Hc Hi. destruct (handler_live c Hc) as (h & Hh & _).
  unfold get_ltv_by_id, _get_ltv_by_id, LookupByID.
  rewrite (CustomerID_valid i Hi).
  unfold_store_calls. run. rewrite Hh. run.
  destruct (store_get (NAMESPACE, SET, i) (store w)) as [b|] eqn:E; run.
  - rewrite project_ltv. destruct (bin_ltv b) as [n|] eqn:En; run.
    + unfold LTV__init__. destruct (n <? 0) eqn:Hn; run; by eexists.
    + by eexists.
  - by eexists.
Qed.

Lemma get_ltv_by_id_invalid c i w :
  i < 1 -> get_ltv_by_id c i w = (Raise (WrongCustomerID i), w).
Proof.
  intros Hi. unfold get_ltv_by_id. rewrite (CustomerID_invalid i Hi). by run.
Qed.

Lemma get_ltv_by_id_not_live c i w :
  is_live c = false -> 1 <= i ->
  get_ltv_by_id c i w = (Raise ClientHandlerUnavailable, w).
Proof.
  intros Hc Hi. destruct (handler_not_live c Hc) as [Hh _].
  unfold get_ltv_by_id, _get_ltv_by_id. rewrite (CustomerID_valid i Hi).
  run. rewrite Hh. by run.
Qed.

(** The same for a read by a valid phone string: one query, answered as
    the specification's LookupByPhone. *)
Lemma get_ltv_by_phone_live c p w :
  is_live c = true -> valid_phone p ->
  exists w', get_ltv_by_phone c p w = (Return (LookupByPhone (store w) p), w') /\
             store w' = store w /\
             calls w' = (calls w ++ [call_query (phone_query p)])%list.
Proof.
  intros Hc Hp. destruct (handler_live c Hc) as (h & Hh & _).
  unfold get_ltv_by_phone, _get_ltv_by_phone, LookupByPhone.
  rewrite (PhoneNumber_valid p Hp).
  unfold_store_calls. run. rewrite Hh. run.
  change (query_where _ _) with (phone_query p).
  rewrite query_matches_phone.
  destruct (records_with_phone (store w) p) as [|[k b] rest] eqn:E; run.
  - by eexists.
  - rewrite project_ltv. destruct (bin_ltv b) as [n|] eqn:En; run.
    + unfold LTV__init__. destruct (n <? 0) eqn:Hn; run; by eexists.
    + by eexists.
Qed.

Lemma get_ltv_by_phone_invalid c p w :
  ~ valid_phone p ->
  exists reason, get_ltv_by_phone c p w = (Raise (WrongNumberFormat reason), w).
Proof.
  intros Hp. destruct (PhoneNumber_invalid p Hp) as [reason Hr].
  exists reason. unfold get_ltv_by_phone. rewrite Hr. by run.
Qed.

Lemma get_ltv_by_phone_not_live c p w :
  is_live c = false -> valid_phone p ->
  get_ltv_by_phone c p w = (Raise ClientHandlerUnavailable, w).
Proof.
  intros Hc Hp. destruct (handler_not_live c Hc) as [Hh _].
  unfold get_ltv_by_phone, _get_ltv_by_phone. rewrite (PhoneNumber_valid p Hp).
  run. rewrite Hh. by run.
Qed.

Lemma add_customer_not_live c i p v w :
  is_live c = false -> 1 <= i -> valid_phone p -> 0 <= v ->
  add_customer c i p v w = (Raise ClientHandlerUnavailable, w).
Proof.
  intros Hc Hi Hp Hv. destruct (handler_not_live c Hc) as [Hh _].
  unfold add_customer, _add_customer.
  rewrite (PhoneNumber_valid p Hp), (CustomerID_valid i Hi), (LTV_valid v Hv).
  run. rewrite Hh. by run.
Qed.
End record_access.

(** ** Record access in ltv_service_api.py without a live handle *)

Section record_access_api.
Context `{Environ}.
Import ltv_service_api.
Implicit Types (c : Client) (w : World) (i v : Z) (p : string).

Lemma api_add_customer_not_live c i p v w :
  is_live c = false -> 1 <= i -> valid_phone p -> 0 <= v ->
  add_customer c i p v w = (Raise AerospikeClientUnavailable, w).
Proof.
  intros Hc Hi Hp Hv. destruct (handler_not_live c Hc) as [_ Hh].
  unfold add_customer, _add_customer.
  change (PhoneNumber__init__ p PHONE_CHECK_POLICY)
    with (ltv_service.PhoneNumber__init__ p ltv_service.PHONE_CHECK_POLICY).
  change (CustomerID__init__ i) with (ltv_service.CustomerID__init__ i).
  change (LTV__init__ v) with (ltv_service.LTV__init__ v).
  rewrite (PhoneNumber_valid p Hp), (CustomerID_valid i Hi), (LTV_valid v Hv).
  run. rewrite Hh. by run.
Qed.

Lemma api_get_ltv_by_id_not_live c i w :
  is_live c = false -> 1 <= i ->
  get_ltv_by_id c i w = (Raise AerospikeClientUnavailable, w).
Proof.
  intros Hc Hi. destruct (handler_not_live c Hc) as [_ Hh].
  unfold get_ltv_by_id, _get_ltv_by_id.
  change (CustomerID__init__ i) with (ltv_service.CustomerID__init__ i).
  rewrite (CustomerID_valid i Hi).
  run. rewrite Hh. by run.
Qed.

Lemma api_get_ltv_by_phone_not_live c p w :
  is_live c = false -> valid_phone p ->
  get_ltv_by_phone c p w = (Raise AerospikeClientUnavailable, w).
Proof.
  intros Hc Hp. destruct (handler_not_live c Hc) as [_ Hh].
  unfold get_ltv_by_phone, _get_ltv_by_phone.
  change (PhoneNumber__init__ p PHONE_CHECK_POLICY)
    with (ltv_service.PhoneNumber__init__ p ltv_service.PHONE_CHECK_POLICY).
  rewrite (PhoneNumber_valid p Hp).
  run. rewrite Hh. by run.
Qed.
End record_access_api.

(** ** Scenarios of the specification, run on the model *)

Section scenarios.
#[local] Existing Instance default_environ.
Import ltv_service.

Example connect_gives_live_client :
  connect true fresh_client = (Return live_client, live_client).
Proof. reflexivity. Qed.

Example connect_unreachable :
  connect false fresh_client = (Raise ClientConnectError, fresh_client).
Proof. reflexivity. Qed.

Example round_trip_by_id :
  fst ((add_customer live_client 42 "555-0100" 1000 ;;
        get_ltv_by_id live_client 42) empty_world)
    = Return (Some 1000).
Proof. vm_compute. reflexivity. Qed.

Example never_written_id_is_absent :
  fst (get_ltv_by_id live_client 9999 empty_world) = Return None.
Proof. vm_compute. reflexivity. Qed.

Example round_trip_by_phone :
  fst ((add_customer live_client 7 "555-0200" 500 ;;
        get_ltv_by_phone live_client "555-0200") empty_world)
    = Return (Some 500).
Proof. vm_compute. reflexivity. Qed.

Example second_write_overwrites :
  fst ((add_customer live_client 1 "a" 10 ;;
        add_customer live_client 1 "a" 20 ;;
        get_ltv_by_id live_client 1) empty_world)
    = Return (Some 20).
Proof. vm_compute. reflexivity. Qed.

Example negative_stored_ltv_is_logged :
  get_ltv_by_id live_client 3 anomalous_world
    = (Return None,
       {| store := store anomalous_world;
          calls := [call_select ("test", "customers", 3) ["ltv"]];
          log := [error_broken_ltv_customer (Some (-5)) 3] |}).
Proof. vm_compute. reflexivity. Qed.
End scenarios.

(** ** Claims about record access *)

(** C1.  On a connected client, for a positive customer id i, a valid
    phone string p and a non-negative integer v, add_customer(conn, i, p,
    v) succeeds and get_ltv_by_id(conn, i) on the resulting store state
    returns v, not an absent result. *)
Theorem C1_add_then_get_by_id `{Environ} (c : Client) (i : Z) (p : string) (v : Z)
    (w : World) :
  is_live c = true -> 1 <= i -> valid_phone p -> 0 <= v ->
  exists w1 w2,
    ltv_service.add_customer c i p v w = (Return tt, w1) /\
    ltv_service.get_ltv_by_id c i w1 = (Return (Some v), w2).
Proof.
  intros Hc Hi Hp Hv.
  eexists. destruct (get_ltv_by_id_live c i
    {| store := store_put (NAMESPACE, SET, i) (customer_bins p v) (store w);
       calls := calls w ++ [call_put (NAMESPACE, SET, i) (customer_bins p v)];
       log := log w |} Hc Hi) as (w2 & Hget & _).
  exists w2. split; [by apply add_customer_live|].
  rewrite Hget. unfold LookupByID. cbn.
  rewrite store_get_put_eq. cbn.
  by rewrite (proj2 (Z.ltb_ge v 0)).
Qed.

Lemma C1_add_then_get_by_id_witness :
  exists w1 w2,
    @ltv_service.add_customer default_environ live_client 42 "555-0100" 1000 empty_world
      = (Return tt, w1) /\
    @ltv_service.get_ltv_by_id default_environ live_client 42 w1
      = (Return (Some 1000), w2).
Proof.
  apply (@C1_add_then_get_by_id default_environ live_client 42 "555-0100" 1000 empty_world).
  - reflexivity.
  - lia.
  - exact valid_phone_555_0100.
  - lia.
Defined.

(** C2.  On a connected client and in every store state, get_ltv_by_id
    and get_ltv_by_phone do not raise for store-side conditions: when the
    record is missing, when its ltv field is absent, or when the stored
    ltv is negative, each returns None; these reads raise only for
    malformed input. *)
Theorem C2_reads_absorb_store_anomalies `{Environ} (c : Client) (w : World) :
  is_live c = true ->
  (forall i, 1 <= i ->
     exists r w', ltv_service.get_ltv_by_id c i w = (Return r, w') /\
       (store_get (NAMESPACE, SET, i) (store w) = None -> r = None) /\
       (forall b, store_get (NAMESPACE, SET, i) (store w) = Some b ->
                  bin_ltv b = None -> r = None) /\
       (forall b n, store_get (NAMESPACE, SET, i) (store w) = Some b ->
                    bin_ltv b = Some n -> n < 0 -> r = None)) /\
  (forall p, valid_phone p ->
     exists r w', ltv_service.get_ltv_by_phone c p w = (Return r, w') /\
       (records_with_phone (store w) p = [] -> r = None) /\
       (forall k b rest, records_with_phone (store w) p = (k, b) :: rest ->
                         bin_ltv b = None -> r = None) /\
       (forall k b rest n, records_with_phone (store w) p = (k, b) :: rest ->
                           bin_ltv b = Some n -> n < 0 -> r = None)) /\
  (forall i e w', ltv_service.get_ltv_by_id c i w = (Raise e, w') -> i < 1) /\
  (forall p e w', ltv_service.get_ltv_by_phone c p w = (Raise e, w') -> ~ valid_phone p).
Proof.
  intros Hc. repeat split.
  - intros i Hi. destruct (get_ltv_by_id_live c i w Hc Hi) as (w' & Hget & _).
    exists (LookupByID (store w) i), w'. unfold LookupByID.
    split; [done|]. repeat split.
    + by intros ->.
    + by intros b -> ->.
    + intros b n -> -> Hn. cbn. by rewrite (proj2 (Z.ltb_lt n 0)).
  - intros p Hp. destruct (get_ltv_by_phone_live c p w Hc Hp) as (w' & Hget & _).
    exists (LookupByPhone (store w) p), w'. unfold LookupByPhone.
    split; [done|]. repeat split.
    + by intros ->.
    + by intros k b rest -> ->.
    + intros k b rest n -> -> Hn. cbn. by rewrite (proj2 (Z.ltb_lt n 0)).
  - intros i e w' Hraise. destruct (Z_lt_le_dec i 1) as [|Hi]; [done|].
    destruct (get_ltv_by_id_live c i w Hc Hi) as (w'' & Hget & _). congruence.
  - intros p e w' Hraise Hp.
    destruct (get_ltv_by_phone_live c p w Hc Hp) as (w'' & Hget & _). congruence.
Qed.

Lemma C2_reads_absorb_store_anomalies_witness :
  (exists w', @ltv_service.get_ltv_by_id default_environ live_client 9999 anomalous_world
                = (Return None, w')) /\
  (exists w', @ltv_service.get_ltv_by_id default_environ live_client 2 anomalous_world
                = (Return None, w')) /\
  (exists w', @ltv_service.get_ltv_by_id default_environ live_client 3 anomalous_world
                = (Return None, w')) /\
  (exists w', @ltv_service.get_ltv_by_phone default_environ live_client "555-0009" anomalous_world
                = (Return None, w')) /\
  (exists w', @ltv_service.get_ltv_by_phone default_environ live_client "555-0002" anomalous_world
                = (Return None, w')) /\
  (exists w', @ltv_service.get_ltv_by_phone default_environ live_client "555-0003" anomalous_world
                = (Return None, w')) /\
  0 < 1 /\
  ~ valid_phone EmptyString.
Proof.
  pose proof (@C2_reads_absorb_store_anomalies default_environ live_client
                anomalous_world eq_refl) as (Hid & Hph & Hraise_id & Hraise_ph).
  assert (Hvalid : forall p, str_bool p = true /\ str_isprintable p = true -> valid_phone p)
    by (intros p; apply valid_phone_checks).
  split; [|split; [|split; [|split; [|split; [|split; [|split]]]]]].
  - destruct (Hid 9999 ltac:(lia)) as (r & w' & Heq & Hmissing & _).
    rewrite (Hmissing eq_refl) in Heq. by exists w'.
  - destruct (Hid 2 ltac:(lia)) as (r & w' & Heq & _ & Hno_ltv & _).
    rewrite (Hno_ltv _ eq_refl eq_refl) in Heq. by exists w'.
  - destruct (Hid 3 ltac:(lia)) as (r & w' & Heq & _ & _ & Hnegative).
    rewrite (Hnegative _ (-5) eq_refl eq_refl ltac:(lia)) in Heq. by exists w'.
  - destruct (Hph "555-0009" (Hvalid "555-0009" (conj eq_refl eq_refl)))
      as (r & w' & Heq & Hmissing & _).
    rewrite (Hmissing eq_refl) in Heq. by exists w'.
  - destruct (Hph "555-0002" (Hvalid "555-0002" (conj eq_refl eq_refl)))
      as (r & w' & Heq & _ & Hno_ltv & _).
    rewrite (Hno_ltv _ _ _ eq_refl eq_refl) in Heq. by exists w'.
  - destruct (Hph "555-0003" (Hvalid "555-0003" (conj eq_refl eq_refl)))
      as (r & w' & Heq & _ & _ & Hnegative).
    rewrite (Hnegative _ _ _ (-5) eq_refl eq_refl ltac:(lia)) in Heq. by exists w'.
  - exact (Hraise_id 0 (WrongCustomerID 0) anomalous_world eq_refl).
  - exact (Hraise_ph EmptyString (WrongNumberFormat "empty phone number")
             anomalous_world eq_refl).
Defined.

(** C9.  On a client whose store connection is absent (never connected) or
    has dropped, add_customer, get_ltv_by_id and get_ltv_by_phone, given
    inputs that pass validation, each fail with the handler-unavailable
    error of their file, and no store call has been made: the world,
    which records every call, is unchanged. *)
Theorem C9_unavailable_handler_fails_first `{Environ} (c : Client) (i : Z) (p : string)
    (v : Z) (w : World) :
  never_connected c \/ dropped c -> 1 <= i -> valid_phone p -> 0 <= v ->
  (ltv_service.add_customer c i p v w = (Raise ClientHandlerUnavailable, w) /\
   ltv_service.get_ltv_by_id c i w = (Raise ClientHandlerUnavailable, w) /\
   ltv_service.get_ltv_by_phone c p w = (Raise ClientHandlerUnavailable, w)) /\
  (ltv_service_api.add_customer c i p v w = (Raise AerospikeClientUnavailable, w) /\
   ltv_service_api.get_ltv_by_id c i w = (Raise AerospikeClientUnavailable, w) /\
   ltv_service_api.get_ltv_by_phone c p w = (Raise AerospikeClientUnavailable, w)).
Proof.
  intros Hc Hi Hp Hv. apply is_live_false in Hc.
  repeat split.
  - by apply add_customer_not_live.
  - by apply get_ltv_by_id_not_live.
  - by apply get_ltv_by_phone_not_live.
  - by apply api_add_customer_not_live.
  - by apply api_get_ltv_by_id_not_live.
  - by apply api_get_ltv_by_phone_not_live.
Qed.

Lemma C9_unavailable_handler_fails_first_witness :
  (never_connected fresh_client \/ dropped fresh_client) /\
  (@ltv_service.add_customer default_environ fresh_client 42 "555-0100" 1000 empty_world
     = (Raise ClientHandlerUnavailable, empty_world) /\
   @ltv_service.get_ltv_by_id default_environ fresh_client 42 empty_world
     = (Raise ClientHandlerUnavailable, empty_world) /\
   @ltv_service.get_ltv_by_phone default_environ fresh_client "555-0100" empty_world
     = (Raise ClientHandlerUnavailable, empty_world)) /\
  (@ltv_service_api.add_customer default_environ fresh_client 42 "555-0100" 1000 empty_world
     = (Raise AerospikeClientUnavailable, empty_world) /\
   @ltv_service_api.get_ltv_by_id default_environ fresh_client 42 empty_world
     = (Raise AerospikeClientUnavailable, empty_world) /\
   @ltv_service_api.get_ltv_by_phone default_environ fresh_client "555-0100" empty_world
     = (Raise AerospikeClientUnavailable, empty_world)).
Proof.
  split; [left; reflexivity|].
  apply (@C9_unavailable_handler_fails_first default_environ fresh_client 42
           "555-0100" 1000 empty_world).
  - left. reflexivity.
  - lia.
  - exact valid_phone_555_0100.
  - lia.
Defined.

(** C10.  Whenever get_ltv_by_id or get_ltv_by_phone returns an integer
    rather than an absent result, that integer is non-negative, whatever
    the client, the store state and the input. *)
Theorem C10_returned_ltv_nonneg `{Environ} (c : Client) (w : World) :
  (forall i n w', ltv_service.get_ltv_by_id c i w = (Return (Some n), w') -> 0 <= n) /\
  (forall p n w', ltv_service.get_ltv_by_phone c p w = (Return (Some n), w') -> 0 <= n).
Proof.
  split.
  - intros i n w' Hret.
    destruct (Z_lt_le_dec i 1) as [Hi|Hi].
    { rewrite (get_ltv_by_id_invalid c i w Hi) in Hret. discriminate. }
    destruct (is_live c) eqn:Hc.
    + destruct (get_ltv_by_id_live c i w Hc Hi) as (w'' & Hget & _).
      rewrite Hget in Hret. injection Hret as Hn _.
      unfold LookupByID in Hn.
      destruct (store_get (NAMESPACE, SET, i) (store w)) as [b|]; [|done].
      by apply (well_formed_ltv_nonneg (bin_ltv b)).
    + rewrite (get_ltv_by_id_not_live c i w Hc Hi) in Hret. discriminate.
  - intros p n w' Hret.
    destruct (PhoneNumber_cases p) as [[Hp _]|[Hp _]].
    2: { destruct (get_ltv_by_phone_invalid c p w Hp) as [reason Hr].
         rewrite Hr in Hret. discriminate. }
    destruct (is_live c) eqn:Hc.
    + destruct (get_ltv_by_phone_live c p w Hc Hp) as (w'' & Hget & _).
      rewrite Hget in Hret. injection Hret as Hn _.
      unfold LookupByPhone in Hn.
      destruct (records_with_phone (store w) p) as [|[k b] rest]; [done|].
      by apply (well_formed_ltv_nonneg (bin_ltv b)).
    + rewrite (get_ltv_by_phone_not_live c p w Hc Hp) in Hret. discriminate.
Qed.

Lemma C10_returned_ltv_nonneg_witness :
  (exists w', @ltv_service.get_ltv_by_id default_environ live_client 1 anomalous_world
                = (Return (Some 10), w')) /\
  (exists w', @ltv_service.get_ltv_by_phone default_environ live_client "555-0001"
                anomalous_world = (Return (Some 10), w')) /\
  0 <= 10.
Proof.
  split; [eexists; vm_compute; reflexivity|].
  split; [eexists; vm_compute; reflexivity|].
  eapply (proj1 (@C10_returned_ltv_nonneg default_environ live_client anomalous_world) 1 10).
  vm_compute. reflexivity.
Defined.

(** ** The connection wrapper *)

Section client_options.
Import ltv_service.
Implicit Types (c : Client) (key : string) (value : Any).

Lemma with_option_present c key value :
  is_Some (_config c !! key) ->
  with_option key value c = (Raise (ClientOptionExists key), c).
Proof. intros [x Hx]. unfold with_option. run. by rewrite Hx. Qed.

Lemma with_option_fresh c key value :
  _config c !! key = None ->
  with_option key value c =
    (Return {| _config := <[key := value]> (_config c); _client := _client c |},
     {| _config := <[key := value]> (_config c); _client := _client c |}).
Proof. intros Hx. unfold with_option. run. by rewrite Hx. Qed.

(** Options accepted before the clash stay in the configuration, so a
    key that is present when the fold starts is still present when the
    fold reaches it. *)
Lemma reduce_with_option_duplicate (options : list (string * Any)) :
  forall c (init : Client) key,
    is_Some (_config c !! key) -> (exists v, (key, v) ∈ options) ->
    exists k' c',
      reduce (fun _ option_kv => with_option (fst option_kv) (snd option_kv))
             options init c
        = (Raise (ClientOptionExists k'), c').
Proof.
  induction options as [|[k1 v1] rest IH]; intros c init key Hkey [v Hin].
  - by apply elem_of_nil in Hin.
  - cbn [reduce]. unfold bind. cbn [fst snd].
    destruct (_config c !! k1) as [x|] eqn:Hk1.
    + rewrite with_option_present by eauto. by eexists _, _.
    + rewrite (with_option_fresh c k1 v1 Hk1).
      apply elem_of_cons in Hin as [[= -> ->]|Hin].
      { rewrite Hk1 in Hkey. by destruct Hkey. }
      apply (IH _ _ key); [|by exists v].
      cbn. destruct (decide (k1 = key)) as [->|Hne].
      * rewrite lookup_insert_eq. eauto.
      * by rewrite lookup_insert_ne.
Qed.
End client_options.

(** C7.  In both files, with_option(key, value) raises ClientOptionExists
    when the key is already in the configuration, and otherwise adds the
    pair and returns the client; so with_options given a key that is
    already present fails with that error. *)
Theorem C7_duplicate_option_rejected (c : Client) (key : string) (value : Any) :
  (is_Some (_config c !! key) ->
   ltv_service.with_option key value c = (Raise (ClientOptionExists key), c) /\
   ltv_service_api.with_option key value c = (Raise (ClientOptionExists key), c)) /\
  (_config c !! key = None ->
   let c' := {| _config := <[key := value]> (_config c); _client := _client c |} in
   ltv_service.with_option key value c = (Return c', c') /\
   ltv_service_api.with_option key value c = (Return c', c')) /\
  (forall options : list (string * Any),
     is_Some (_config c !! key) -> (exists v, (key, v) ∈ options) ->
     exists k' c',
       ltv_service.with_options options c = (Raise (ClientOptionExists k'), c') /\
       ltv_service_api.with_options options c = (Raise (ClientOptionExists k'), c')).
Proof.
  split; [|split].
  - intros Hkey. split; [by apply with_option_present|].
    exact (with_option_present c key value Hkey).
  - intros Hkey c'. split; [by apply with_option_fresh|].
    exact (with_option_fresh c key value Hkey).
  - intros options Hkey Hin.
    destruct (reduce_with_option_duplicate options c c key Hkey Hin) as (k' & c' & Hred).
    exists k', c'. split; exact Hred.
Qed.

Lemma C7_duplicate_option_rejected_witness :
  let hosts := PyHosts [("127.0.0.1", 3000)] in
  let timeout := PyPolicies [("timeout", 1000)] in
  let c := ltv_service.Client__init__ (<["hosts" := hosts]> ∅) in
  (ltv_service.with_option "hosts" hosts c = (Raise (ClientOptionExists "hosts"), c) /\
   ltv_service_api.with_option "hosts" hosts c = (Raise (ClientOptionExists "hosts"), c)) /\
  (exists c', ltv_service.with_option "policies" timeout c = (Return c', c') /\
              ltv_service_api.with_option "policies" timeout c = (Return c', c')) /\
  (exists k' c',
     ltv_service.with_options [("policies", timeout); ("hosts", hosts)] c
       = (Raise (ClientOptionExists k'), c') /\
     ltv_service_api.with_options [("policies", timeout); ("hosts", hosts)] c
       = (Raise (ClientOptionExists k'), c')).
Proof.
  intros hosts timeout c.
  assert (Hpresent : is_Some (_config c !! "hosts")) by (exists hosts; reflexivity).
  split; [|split].
  - exact (proj1 (C7_duplicate_option_rejected c "hosts" hosts) Hpresent).
  - eexists.
    exact (proj1 (proj2 (C7_duplicate_option_rejected c "policies" timeout)) eq_refl).
  - apply (proj2 (proj2 (C7_duplicate_option_rejected c "hosts" hosts))
             [("policies", timeout); ("hosts", hosts)] Hpresent).
    exists hosts. apply elem_of_cons. right. apply elem_of_cons. by left.
Defined.

Section client_close.
Implicit Types (c : Client) (h : aerospike_Client).

(** [self.is_available] is not called, so the guard does not protect the
    call of [is_connected] on [None]. *)
Lemma close_never_connected c :
  never_connected c ->
  ltv_service.close c = (Raise AttributeError, c) /\
  ltv_service_api.close c = (Raise AttributeError, c).
Proof.
  unfold never_connected, ltv_service.close, ltv_service_api.close.
  intros Hc. run. by rewrite Hc.
Qed.

(** On a connected client [close] closes the handle. *)
Lemma close_live c :
  is_live c = true ->
  ltv_service.close c = (Return tt, {| _config := _config c;
                                       _client := Some {| connected := false |} |}) /\
  ltv_service_api.close c = (Return tt, {| _config := _config c;
                                           _client := Some {| connected := false |} |}).
Proof.
  unfold is_live, ltv_service.close, ltv_service_api.close.
  destruct c as [cfg [h|]]; cbn; [|done].
  intros Hh. run. by rewrite Hh.
Qed.

(** On a client whose handle is already closed [close] does nothing. *)
Lemma close_dropped c :
  dropped c ->
  ltv_service.close c = (Return tt, c) /\ ltv_service_api.close c = (Return tt, c).
Proof.
  unfold dropped, ltv_service.close, ltv_service_api.close.
  intros (h & Hc & Hh). run. rewrite Hc. run. by rewrite Hh.
Qed.

(** Once a handle exists, closing twice is closing once. *)
Lemma close_twice c :
  _client c <> None ->
  exists c', ltv_service.close c = (Return tt, c') /\
             ltv_service.close c' = (Return tt, c').
Proof.
  intros Hc. destruct (is_live c) eqn:Hlive.
  - eexists. split; [apply close_live; done|].
    apply close_dropped. by eexists.
  - exists c. apply is_live_false in Hlive as [Hn|Hd]; [done|].
    split; by apply close_dropped.
Qed.
End client_close.

(** C8.  The claim is that close never raises in any client state.  On a
    client that never connected it does raise, in both files: the guard
    tests the method object [self.is_available], which is always true,
    and [is_connected] is then called on [None]. *)
Theorem C8_close_raises_when_never_connected (config : gmap string Any) :
  ltv_service.close (ltv_service.Client__init__ config)
    = (Raise AttributeError, ltv_service.Client__init__ config) /\
  ltv_service_api.close (ltv_service_api.Client__init__ config)
    = (Raise AttributeError, ltv_service_api.Client__init__ config).
Proof.
  split.
  - by apply (close_never_connected (ltv_service.Client__init__ config)).
  - by apply (close_never_connected (ltv_service_api.Client__init__ config)).
Qed.

(** ** The two files side by side *)

Lemma handler_cases (c : Client) :
  (exists h, ltv_service.handler c = (Return h, c) /\
             ltv_service_api.handler c = (Return h, c)) \/
  (ltv_service.handler c = (Raise ClientHandlerUnavailable, c) /\
   ltv_service_api.handler c = (Raise AerospikeClientUnavailable, c)).
Proof.
  destruct (is_live c) eqn:Hc.
  - left. by apply handler_live.
  - right. by apply handler_not_live.
Qed.

Ltac unfold_both :=
  unfold ltv_service.get_ltv_by_id, ltv_service_api.get_ltv_by_id,
    ltv_service._get_ltv_by_id, ltv_service_api._get_ltv_by_id,
    ltv_service.get_ltv_by_phone, ltv_service_api.get_ltv_by_phone,
    ltv_service._get_ltv_by_phone, ltv_service_api._get_ltv_by_phone,
    ltv_service.add_customer, ltv_service_api.add_customer,
    ltv_service._add_customer, ltv_service_api._add_customer,
    ltv_service.CustomerID__init__, ltv_service_api.CustomerID__init__,
    ltv_service.LTV__init__, ltv_service_api.LTV__init__;
  change ltv_service_api.PhoneNumber__init__ with ltv_service.PhoneNumber__init__;
  change ltv_service_api.PHONE_CHECK_POLICY with ltv_service.PHONE_CHECK_POLICY.

(** C4, as the code has it.  For every client, store state and input,
    get_ltv_by_id and get_ltv_by_phone of ltv_service.py and of
    ltv_service_api.py return the same result and leave the same world,
    and add_customer performs the same store write in both.  The
    differences are the return value of add_customer (nothing against the
    written id) and the class of the error raised when the handler is
    unavailable: ClientHandlerUnavailable in ltv_service.py,
    AerospikeClientUnavailable in ltv_service_api.py. *)
Theorem C4_same_design_up_to_handler_error `{Environ} (c : Client) (w : World) :
  (forall i, rename_raised (ltv_service.get_ltv_by_id c i w)
               = ltv_service_api.get_ltv_by_id c i w) /\
  (forall p, rename_raised (ltv_service.get_ltv_by_phone c p w)
               = ltv_service_api.get_ltv_by_phone c p w) /\
  (forall i p v, rename_raised (returning i (ltv_service.add_customer c i p v w))
                   = ltv_service_api.add_customer c i p v w).
Proof.
  destruct (handler_cases c) as [(h & Hh & Hh')|[Hh Hh']].
  - split; [|split].
    + intros i. unfold_both. unfold_store_calls.
      destruct (i <? 1); run; [done|]. rewrite Hh, Hh'. run.
      destruct (store_get (NAMESPACE, SET, i) (store w)) as [b|]; run; [|done].
      rewrite project_ltv. destruct (bin_ltv b) as [n|]; run; [|done].
      by destruct (n <? 0).
    + intros p. unfold_both. unfold_store_calls.
      destruct (PhoneNumber_cases p) as [[_ ->]|[_ [reason ->]]]; run; [|done].
      rewrite Hh, Hh'. run.
      match goal with
      | |- context [ match ?l with [] => _ | _ :: _ => _ end ] =>
          destruct l as [|[[k m] b] rest]
      end; run; [done|].
      destruct (bin_ltv b) as [n|]; run; [|done].
      by destruct (n <? 0).
    + intros i p v. unfold_both. unfold_store_calls.
      destruct (PhoneNumber_cases p) as [[_ ->]|[_ [reason ->]]]; run; [|done].
      destruct (i <? 1); run; [done|].
      destruct (v <? 0); run; [done|].
      rewrite Hh, Hh'. run. by rewrite Z.eqb_refl.
  - split; [|split].
    + intros i. unfold_both.
      destruct (i <? 1); run; [done|]. by rewrite Hh, Hh'.
    + intros p. unfold_both.
      destruct (PhoneNumber_cases p) as [[_ ->]|[_ [reason ->]]]; run; [|done].
      by rewrite Hh, Hh'.
    + intros i p v. unfold_both.
      destruct (PhoneNumber_cases p) as [[_ ->]|[_ [reason ->]]]; run; [|done].
      destruct (i <? 1); run; [done|].
      destruct (v <? 0); run; [done|].
      by rewrite Hh, Hh'.
Qed.

(** On a client that never connected the two files do not behave alike:
    the read by id raises ClientHandlerUnavailable in one and
    AerospikeClientUnavailable in the other. *)
Lemma C4_handler_error_differs :
  @ltv_service.get_ltv_by_id default_environ fresh_client 1 empty_world
    = (Raise ClientHandlerUnavailable, empty_world) /\
  @ltv_service_api.get_ltv_by_id default_environ fresh_client 1 empty_world
    = (Raise AerospikeClientUnavailable, empty_world) /\
  @ltv_service.get_ltv_by_id default_environ fresh_client 1 empty_world
    <> @ltv_service_api.get_ltv_by_id default_environ fresh_client 1 empty_world.
Proof. split; [reflexivity | split; [reflexivity | discriminate]]. Qed.

(** * Further properties of the code *)

(** ** Building a configuration *)

Section client_options_more.
Import ltv_service.
Implicit Types (c : Client) (options pre post : list (string * Any)).

Lemma reduce_app {S A B} (f : A -> B -> M S A) (l1 l2 : list B) (init : A) (s : S) :
  reduce f (l1 ++ l2) init s = (acc <- reduce f l1 init ;; reduce f l2 acc) s.
Proof.
  revert init s. induction l1 as [|x l1 IH]; intros init s; cbn [reduce app].
  - done.
  - unfold bind. destruct (f init x s) as [[a|e] s'] eqn:E; [|done].
    rewrite IH. done.
Qed.

Lemma Client_eta c : {| _config := _config c; _client := _client c |} = c.
Proof. by destruct c. Qed.

(** Folding [with_option] over pairs with distinct keys, none of them set
    yet, sets them all. *)
Lemma reduce_with_option_fresh options :
  forall c,
    NoDup options.*1 -> (forall k, k ∈ options.*1 -> _config c !! k = None) ->
    reduce (fun _ option_kv => with_option (fst option_kv) (snd option_kv)) options c c
      = (Return {| _config := list_to_map options ∪ _config c; _client := _client c |},
         {| _config := list_to_map options ∪ _config c; _client := _client c |}).
Proof.
  induction options as [|[k1 v1] rest IH]; intros c Hnd Hfresh.
  - cbn. rewrite (left_id_L ∅ (∪)). by rewrite Client_eta.
  - cbn [reduce]. unfold bind. cbn [fst snd].
    rewrite fmap_cons in Hnd. apply NoDup_cons in Hnd as [Hk1 Hnd]. cbn [fst] in Hk1.
    rewrite with_option_fresh by (apply Hfresh; cbn; left).
    rewrite IH; [|done|].
    2: { intros k Hk. cbn. rewrite lookup_insert_ne.
         - apply Hfresh. cbn. by right.
         - intros Heq. subst k. by apply Hk1. }
    cbn [_config _client].
    assert (Heq : list_to_map rest ∪ <[k1:=v1]> (_config c)
                  = list_to_map ((k1, v1) :: rest) ∪ _config c).
    { cbn. rewrite <- insert_union_l. rewrite insert_union_r; [done|].
      by apply not_elem_of_list_to_map_1. }
    by rewrite Heq.
Qed.

Lemma reduce_with_option_grows options :
  forall c (init : Client),
    let c' := (reduce (fun _ option_kv => with_option (fst option_kv) (snd option_kv))
                      options init c).2 in
    _config c ⊆ _config c' /\ _client c' = _client c.
Proof.
  induction options as [|[k1 v1] rest IH]; intros c init; cbn [reduce].
  - done.
  - unfold bind. cbn [fst snd].
    destruct (_config c !! k1) as [x|] eqn:Hk1.
    + rewrite with_option_present by eauto. done.
    + rewrite (with_option_fresh c k1 v1 Hk1).
      destruct (IH {| _config := <[k1:=v1]> (_config c); _client := _client c |}
                   {| _config := <[k1:=v1]> (_config c); _client := _client c |})
        as [Hsub Hcl].
      split; [|done].
      etrans; [|exact Hsub]. by apply insert_subseteq.
Qed.

Lemma with_options_fresh options c :
  NoDup options.*1 -> (forall k, k ∈ options.*1 -> _config c !! k = None) ->
  with_options options c
    = (Return {| _config := list_to_map options ∪ _config c; _client := _client c |},
       {| _config := list_to_map options ∪ _config c; _client := _client c |}).
Proof.
  intros Hnd Hfresh. unfold with_options. unfold bind at 1. unfold get.
  by apply reduce_with_option_fresh.
Qed.

Lemma with_options_clash pre post k v c :
  NoDup pre.*1 -> (forall k', k' ∈ pre.*1 -> _config c !! k' = None) ->
  is_Some (_config c !! k) ->
  with_options (pre ++ (k, v) :: post) c
    = (Raise (ClientOptionExists k),
       {| _config := list_to_map pre ∪ _config c; _client := _client c |}).
Proof.
  intros Hnd Hfresh Hk.
  unfold with_options. unfold bind at 1. unfold get.
  rewrite reduce_app. unfold bind at 1.
  rewrite reduce_with_option_fresh by done.
  cbn [reduce]. unfold bind. cbn [fst snd].
  rewrite with_option_present; [done|].
  cbn. destruct Hk as [x Hx]. exists x.
  apply lookup_union_Some_raw. right. split; [|done].
  apply not_elem_of_list_to_map_1. intros Hin.
  specialize (Hfresh k Hin). congruence.
Qed.
End client_options_more.

(** X1.  In both files, with_options given pairs with distinct keys, none
    of which is set yet, returns the client with every pair added, the
    options it had kept, and its handle untouched. *)
Theorem with_options_adds_fresh_options (options : list (string * Any)) (c : Client) :
  NoDup options.*1 -> (forall k, k ∈ options.*1 -> _config c !! k = None) ->
  let c' := {| _config := list_to_map options ∪ _config c; _client := _client c |} in
  ltv_service.with_options options c = (Return c', c') /\
  ltv_service_api.with_options options c = (Return c', c').
Proof.
  intros Hnd Hfresh c'. split; [by apply with_options_fresh|].
  exact (with_options_fresh options c Hnd Hfresh).
Qed.

Lemma with_options_adds_fresh_options_witness :
  let options := [("hosts", hosts_option); ("policies", policies_option)] in
  let c' := {| _config := list_to_map options ∪ _config fresh_client;
               _client := _client fresh_client |} in
  ltv_service.with_options options fresh_client = (Return c', c') /\
  ltv_service_api.with_options options fresh_client = (Return c', c').
Proof.
  intros options.
  apply (with_options_adds_fresh_options options fresh_client).
  - compute_done.
  - intros k _. apply lookup_empty.
Defined.

(** X2.  In both files, with_options stops at the first key that is
    already set and raises ClientOptionExists for it; the pairs that came
    before it stay in the configuration, so a failed call is not undone. *)
Theorem with_options_stops_at_first_clash (pre post : list (string * Any))
    (k : string) (v : Any) (c : Client) :
  NoDup pre.*1 -> (forall k', k' ∈ pre.*1 -> _config c !! k' = None) ->
  is_Some (_config c !! k) ->
  let c' := {| _config := list_to_map pre ∪ _config c; _client := _client c |} in
  ltv_service.with_options (pre ++ (k, v) :: post) c
    = (Raise (ClientOptionExists k), c') /\
  ltv_service_api.with_options (pre ++ (k, v) :: post) c
    = (Raise (ClientOptionExists k), c').
Proof.
  intros Hnd Hfresh Hk c'. split; [by apply with_options_clash|].
  exact (with_options_clash pre post k v c Hnd Hfresh Hk).
Qed.

Lemma with_options_stops_at_first_clash_witness :
  let pre := [("policies", policies_option)] in
  let c' := {| _config := list_to_map pre ∪ _config configured_client;
               _client := _client configured_client |} in
  ltv_service.with_options (pre ++ [("hosts", hosts_option)]) configured_client
    = (Raise (ClientOptionExists "hosts"), c') /\
  ltv_service_api.with_options (pre ++ [("hosts", hosts_option)]) configured_client
    = (Raise (ClientOptionExists "hosts"), c').
Proof.
  intros pre.
  apply (with_options_stops_at_first_clash pre [] "hosts" hosts_option configured_client).
  - compute_done.
  - intros k' Hk'. apply list_elem_of_singleton in Hk'. subst k'. reflexivity.
  - exists hosts_option. reflexivity.
Defined.

(** X3.  In both files, whatever the options and whether the call returns
    or raises, with_options never changes or removes an option that was
    set, and never touches the handle. *)
Theorem with_options_never_overwrites (options : list (string * Any)) (c : Client) :
  (_config c ⊆ _config (ltv_service.with_options options c).2 /\
   _client (ltv_service.with_options options c).2 = _client c) /\
  (_config c ⊆ _config (ltv_service_api.with_options options c).2 /\
   _client (ltv_service_api.with_options options c).2 = _client c).
Proof.
  split.
  - exact (reduce_with_option_grows options c c).
  - exact (reduce_with_option_grows options c c).
Qed.

(** ** The life of a connection *)

Section lifecycle.
Implicit Types (c : Client) (h : aerospike_Client).

Lemma is_closed_with_handle c h :
  _client c = Some h ->
  ltv_service.is_closed c = (Return (negb (is_connected h)), c) /\
  ltv_service_api.is_closed c = (Return (negb (is_connected h)), c).
Proof.
  intros Hc. unfold ltv_service.is_closed, ltv_service_api.is_closed,
    ltv_service.is_available, ltv_service_api.is_available.
  run. rewrite Hc. run. by destruct (is_connected h).
Qed.

(** Asked of a client that never connected, [is_closed] raises rather
    than answering. *)
Lemma is_closed_never_connected c :
  never_connected c ->
  ltv_service.is_closed c = (Raise ClientHandlerUnavailable, c) /\
  ltv_service_api.is_closed c = (Raise AerospikeClientUnavailable, c).
Proof.
  intros Hc. unfold ltv_service.is_closed, ltv_service_api.is_closed,
    ltv_service.is_available, ltv_service_api.is_available.
  run. by rewrite Hc.
Qed.
End lifecycle.

(** X4.  In both files the handler property returns a handle exactly when
    is_closed answers False; in every other state, among them the client
    that never connected, on which is_closed raises, the handler is
    unavailable. *)
Theorem handler_iff_not_closed (c : Client) :
  ((exists h, ltv_service.handler c = (Return h, c)) <->
   ltv_service.is_closed c = (Return false, c)) /\
  ((exists h, ltv_service_api.handler c = (Return h, c)) <->
   ltv_service_api.is_closed c = (Return false, c)).
Proof.
  destruct (_client c) as [h|] eqn:Hc.
  - destruct (is_closed_with_handle c h Hc) as [-> ->].
    destruct (is_connected h) eqn:Hh; cbn.
    + assert (Hlive : is_live c = true) by (unfold is_live; by rewrite Hc).
      destruct (handler_live c Hlive) as (h' & Hs & Ha).
      split; (split; [done | intros _; by exists h']).
    + assert (Hlive : is_live c = false) by (unfold is_live; by rewrite Hc).
      destruct (handler_not_live c Hlive) as [-> ->].
      split; (split; [by intros [h' ?] | done]).
  - destruct (is_closed_never_connected c Hc) as [-> ->].
    assert (Hlive : is_live c = false) by (unfold is_live; by rewrite Hc).
    destruct (handler_not_live c Hlive) as [-> ->].
    split; (split; [by intros [h' ?] | done]).
Qed.

(** X5.  After close on a connected client, connect of
    ltv_service_api.py raises AerospikeClientUnavailable whether or not
    the cluster can be reached, so a closed client stays closed; connect
    of ltv_service.py dials again and the client is connected anew. *)
Theorem reconnect_after_close (c : Client) :
  is_live c = true ->
  ltv_service.close c = (Return tt, closed_of c) /\
  ltv_service_api.close c = (Return tt, closed_of c) /\
  (forall reachable,
     ltv_service_api.connect reachable (closed_of c)
       = (Raise AerospikeClientUnavailable, closed_of c)) /\
  ltv_service.connect true (closed_of c) = (Return (connected_of c), connected_of c).
Proof.
  intros Hc. destruct (close_live c Hc) as [Hs Ha].
  split; [done|]. split; [done|]. split; [|done].
  by intros [].
Qed.

Lemma reconnect_after_close_witness :
  ltv_service.close live_client = (Return tt, closed_of live_client) /\
  ltv_service_api.close live_client = (Return tt, closed_of live_client) /\
  (forall reachable,
     ltv_service_api.connect reachable (closed_of live_client)
       = (Raise AerospikeClientUnavailable, closed_of live_client)) /\
  ltv_service.connect true (closed_of live_client)
    = (Return (connected_of live_client), connected_of live_client).
Proof. apply (reconnect_after_close live_client). reflexivity. Defined.



(** ** Phone policies in general *)

Section pipelines.
Import ltv_service.
Implicit Types (policy q : PhonePolicy) (policies pre post : list PhonePolicy)
  (s message : string).


Lemma pipeline_check_all_accept policies s :
  PhonePolicyPipeline_check policies s = (true, EmptyString) <->
  forall policy, policy ∈ policies -> accepts policy s.
Proof.
  induction policies as [|p ps IH]; cbn.
  - split; [|done]. intros _ policy Hin. by apply elem_of_nil in Hin.
  - unfold accepts in *. destruct (check p s) as [[] m] eqn:Hp; cbn.
    + rewrite IH. split.
      * intros Hall policy [->|Hin]%elem_of_cons; [by rewrite Hp | by apply Hall].
      * intros Hall policy Hin. apply Hall. by right.
    + split; [done|]. intros Hall. specialize (Hall p ltac:(left)). by rewrite Hp in Hall.
Qed.

Lemma pipeline_check_app policies more s :
  PhonePolicyPipeline_check (policies ++ more)%list s =
    if (PhonePolicyPipeline_check policies s).1 then PhonePolicyPipeline_check more s
    else PhonePolicyPipeline_check policies s.
Proof.
  induction policies as [|p ps IH]; cbn; [done|].
  destruct (check p s) as [[] m]; cbn; [apply IH | done].
Qed.
End pipelines.



(** X8.  A pipeline accepts a string, with an empty message, exactly when
    every one of its policies accepts it. *)
Theorem pipeline_accepts_iff_all_accept (policy : PhonePolicy)
    (policies : list PhonePolicy) (s : string) :
  check (ltv_service.PhonePolicyPipeline policy policies) s = (true, EmptyString) <->
  forall p, p ∈ policy :: policies -> accepts p s.
Proof. exact (pipeline_check_all_accept (policy :: policies) s). Qed.

(** X9.  A pipeline is itself a policy: a pipeline placed first in another
    pipeline checks like the single pipeline of all the policies in
    order. *)
Theorem pipeline_nests (policy : PhonePolicy) (policies more : list PhonePolicy)
    (s : string) :
  check (ltv_service.PhonePolicyPipeline
           (ltv_service.PhonePolicyPipeline policy policies) more) s
    = check (ltv_service.PhonePolicyPipeline policy (policies ++ more)%list) s.
Proof.
  change (check (ltv_service.PhonePolicyPipeline
                   (ltv_service.PhonePolicyPipeline policy policies) more) s)
    with (let '(result_, error_message) :=
            ltv_service.PhonePolicyPipeline_check (policy :: policies) s in
          if negb result_ then (result_, error_message)
          else ltv_service.PhonePolicyPipeline_check more s).
  change (check (ltv_service.PhonePolicyPipeline policy (policies ++ more)%list) s)
    with (ltv_service.PhonePolicyPipeline_check ((policy :: policies) ++ more)%list s).
  rewrite pipeline_check_app.
  by destruct (ltv_service.PhonePolicyPipeline_check (policy :: policies) s) as [[] m].
Qed.

(** ** Outcomes of the three operations *)

Section outcomes.
Context `{Environ}.
Import ltv_service.
Implicit Types (c : Client) (w : World) (i v : Z) (p : string) (s : Store).

Lemma bind_run {A B} (m : M World A) (k : A -> M World B) w a w' :
  m w = (Return a, w') -> (x <- m ;; k x) w = k a w'.
Proof. intros Hm. unfold bind. by rewrite Hm. Qed.

Lemma add_customer_invalid_phone c i p v w :
  ~ valid_phone p ->
  exists reason, add_customer c i p v w = (Raise (WrongNumberFormat reason), w).
Proof.
  intros Hp. destruct (PhoneNumber_invalid p Hp) as [reason Hr].
  exists reason. unfold add_customer. rewrite Hr. by run.
Qed.

Lemma add_customer_invalid_id c i p v w :
  valid_phone p -> i < 1 -> add_customer c i p v w = (Raise (WrongCustomerID i), w).
Proof.
  intros Hp Hi. unfold add_customer.
  rewrite (PhoneNumber_valid p Hp), (CustomerID_invalid i Hi). by run.
Qed.

Lemma add_customer_invalid_ltv c i p v w :
  valid_phone p -> 1 <= i -> v < 0 -> add_customer c i p v w = (Raise (WrongLTV v), w).
Proof.
  intros Hp Hi Hv. unfold add_customer.
  rewrite (PhoneNumber_valid p Hp), (CustomerID_valid i Hi), (LTV_invalid v Hv). by run.
Qed.

Lemma records_with_phone_cons_match kb s p :
  has_phone p kb -> records_with_phone (kb :: s) p = kb :: records_with_phone s p.
Proof. intros Hm. unfold records_with_phone. by apply filter_cons_True. Qed.

Lemma records_with_phone_cons_other kb s p :
  ~ has_phone p kb -> records_with_phone (kb :: s) p = records_with_phone s p.
Proof. intros Hm. unfold records_with_phone. by apply filter_cons_False. Qed.

Lemma records_with_phone_elem kb s p :
  kb ∈ records_with_phone s p <-> has_phone p kb /\ kb ∈ s.
Proof. unfold records_with_phone. apply list_elem_of_filter. Qed.

(** In a store with one record per key, writing customer [i] with a phone
    that no other customer has leaves [i] as the only match of a query
    for that phone. *)
Lemma records_with_phone_put s p i v :
  NoDup s.*1 -> phone_owned_by s p i ->
  records_with_phone (store_put (NAMESPACE, SET, i) (customer_bins p v) s) p
    = [((NAMESPACE, SET, i), customer_bins p v)].
Proof.
  assert (Hnew : has_phone p ((NAMESPACE, SET, i), customer_bins p v)) by done.
  induction s as [|[k b] s IH]; intros Hnd Hown.
  - cbn [store_put]. by rewrite records_with_phone_cons_match.
  - rewrite fmap_cons in Hnd. apply NoDup_cons in Hnd as [Hk Hnd]. cbn [fst] in Hk.
    cbn [store_put]. destruct (decide (k = (NAMESPACE, SET, i))) as [->|Hne].
    + rewrite records_with_phone_cons_match by done. f_equal.
      destruct (records_with_phone s p) as [|kb rest] eqn:E; [done|].
      exfalso. apply Hk.
      assert (Hin : kb ∈ records_with_phone s p) by (rewrite E; left).
      apply records_with_phone_elem in Hin as [Hm Hin].
      assert (Hkey : kb.1 = (NAMESPACE, SET, i)).
      { apply Hown. apply records_with_phone_elem. split; [done | by right]. }
      rewrite <- Hkey. apply list_elem_of_fmap. by exists kb.
    + rewrite records_with_phone_cons_other.
      * apply IH; [done|]. intros kb [Hm Hin]%records_with_phone_elem. apply Hown.
        apply records_with_phone_elem. split; [done | by right].
      * intros Hmatch. apply Hne.
        apply (Hown (k, b)). apply records_with_phone_elem. split; [done | left].
Qed.
End outcomes.

Ltac logged :=
  eexists _, _; split; [reflexivity | cbn; first [done | eexists; reflexivity]].

(** X10.  For every client, input and world, add_customer either returns
    after exactly one put of the given phone and ltv at the key of the
    given id, or raises and leaves the world as it was; the errors it can
    raise are WrongNumberFormat, WrongCustomerID, WrongLTV and
    ClientHandlerUnavailable. *)
Theorem add_customer_outcome `{Environ} (c : Client) (i : Z) (p : string) (v : Z)
    (w : World) :
  match ltv_service.add_customer c i p v w with
  | (Return _, w') => w' = after_put i p v w
  | (Raise e, w') =>
      w' = w /\
      ((exists reason, e = WrongNumberFormat reason) \/ e = WrongCustomerID i \/
       e = WrongLTV v \/ e = ClientHandlerUnavailable)
  end.
Proof.
  destruct (PhoneNumber_cases p) as [[Hp _]|[Hp _]].
  2: { destruct (add_customer_invalid_phone c i p v w Hp) as [reason ->]. eauto. }
  destruct (Z_lt_le_dec i 1) as [Hi|Hi].
  { rewrite add_customer_invalid_id by done. eauto. }
  destruct (Z_lt_le_dec v 0) as [Hv|Hv].
  { rewrite add_customer_invalid_ltv by done. eauto 6. }
  destruct (is_live c) eqn:Hc.
  - by rewrite add_customer_live.
  - rewrite add_customer_not_live by done. eauto 6.
Qed.

(** X11.  Inputs are validated before the connection is looked at, and in
    a fixed order: on any client, even one that never connected,
    add_customer reports a bad phone before a bad id and a bad id before
    a bad ltv, and the two reads report their bad input; no store call is
    made. *)
Theorem validation_comes_first `{Environ} (c : Client) (i : Z) (p : string) (v : Z)
    (w : World) :
  (~ valid_phone p ->
   exists reason,
     ltv_service.add_customer c i p v w = (Raise (WrongNumberFormat reason), w) /\
     ltv_service.get_ltv_by_phone c p w = (Raise (WrongNumberFormat reason), w)) /\
  (valid_phone p -> i < 1 ->
   ltv_service.add_customer c i p v w = (Raise (WrongCustomerID i), w)) /\
  (valid_phone p -> 1 <= i -> v < 0 ->
   ltv_service.add_customer c i p v w = (Raise (WrongLTV v), w)) /\
  (i < 1 -> ltv_service.get_ltv_by_id c i w = (Raise (WrongCustomerID i), w)).
Proof.
  split; [|split; [|split]].
  - intros Hp. destruct (PhoneNumber_invalid p Hp) as [reason Hr]. exists reason.
    unfold ltv_service.add_customer, ltv_service.get_ltv_by_phone. rewrite Hr. by run.
  - apply add_customer_invalid_id.
  - apply add_customer_invalid_ltv.
  - apply get_ltv_by_id_invalid.
Qed.

Lemma validation_comes_first_witness :
  (exists reason,
     @ltv_service.add_customer default_environ fresh_client 0 EmptyString (-1) empty_world
       = (Raise (WrongNumberFormat reason), empty_world) /\
     @ltv_service.get_ltv_by_phone default_environ fresh_client EmptyString empty_world
       = (Raise (WrongNumberFormat reason), empty_world)) /\
  @ltv_service.add_customer default_environ fresh_client 0 "555-0100" (-1) empty_world
    = (Raise (WrongCustomerID 0), empty_world) /\
  @ltv_service.add_customer default_environ fresh_client 1 "555-0100" (-1) empty_world
    = (Raise (WrongLTV (-1)), empty_world) /\
  @ltv_service.get_ltv_by_id default_environ fresh_client 0 empty_world
    = (Raise (WrongCustomerID 0), empty_world).
Proof.
  split; [|split; [|split]].
  - apply (proj1 (@validation_comes_first default_environ fresh_client 0 EmptyString
                    (-1) empty_world)).
    intros [Hne _]. by apply Hne.
  - apply (proj1 (proj2 (@validation_comes_first default_environ fresh_client 0
                           "555-0100" (-1) empty_world))).
    + exact valid_phone_555_0100.
    + lia.
  - apply (proj1 (proj2 (proj2 (@validation_comes_first default_environ fresh_client 1
                                  "555-0100" (-1) empty_world)))).
    + exact valid_phone_555_0100.
    + lia.
    + lia.
  - apply (proj2 (proj2 (proj2 (@validation_comes_first default_environ fresh_client 0
                                  "555-0100" (-1) empty_world)))).
    lia.
Defined.

(** X12.  For every client, input and world, a read never changes the
    store contents: get_ltv_by_id either returns after exactly one select
    of the ltv field at the key of the id, or raises WrongCustomerID or
    ClientHandlerUnavailable with the world as it was; get_ltv_by_phone
    either returns after exactly one query for the phone, or raises
    WrongNumberFormat or ClientHandlerUnavailable with the world as it
    was.  RecordNotFound and WrongLTV never reach the caller. *)
Theorem reads_outcome `{Environ} (c : Client) (w : World) :
  (forall i,
     match ltv_service.get_ltv_by_id c i w with
     | (Return _, w') =>
         store w' = store w /\
         calls w' = (calls w ++ [call_select (NAMESPACE, SET, i) ["ltv"]])%list
     | (Raise e, w') => w' = w /\ (e = WrongCustomerID i \/ e = ClientHandlerUnavailable)
     end) /\
  (forall p,
     match ltv_service.get_ltv_by_phone c p w with
     | (Return _, w') =>
         store w' = store w /\ calls w' = (calls w ++ [call_query (phone_query p)])%list
     | (Raise e, w') =>
         w' = w /\
         ((exists reason, e = WrongNumberFormat reason) \/ e = ClientHandlerUnavailable)
     end).
Proof.
  split.
  - intros i. destruct (Z_lt_le_dec i 1) as [Hi|Hi].
    { rewrite get_ltv_by_id_invalid by done. eauto. }
    destruct (is_live c) eqn:Hc.
    + destruct (get_ltv_by_id_live c i w Hc Hi) as (w' & -> & Hs & Hcalls). done.
    + rewrite get_ltv_by_id_not_live by done. eauto.
  - intros p. destruct (PhoneNumber_cases p) as [[Hp _]|[Hp _]].
    2: { destruct (get_ltv_by_phone_invalid c p w Hp) as [reason ->]. eauto. }
    destruct (is_live c) eqn:Hc.
    + destruct (get_ltv_by_phone_live c p w Hc Hp) as (w' & -> & Hs & Hcalls). done.
    + rewrite get_ltv_by_phone_not_live by done. eauto.
Qed.

(** ** Writes followed by reads *)

(** X13.  The last write wins: on a connected client, after two valid
    writes for the same id, a read by that id returns the ltv of the
    second write, whatever the phones and the first ltv were. *)
Theorem last_write_wins `{Environ} (c : Client) (i : Z) (p1 : string) (v1 : Z)
    (p2 : string) (v2 : Z) (w : World) :
  is_live c = true -> 1 <= i ->
  valid_phone p1 -> 0 <= v1 -> valid_phone p2 -> 0 <= v2 ->
  fst ((ltv_service.add_customer c i p1 v1 ;;
        ltv_service.add_customer c i p2 v2 ;;
        ltv_service.get_ltv_by_id c i) w)
    = Return (Some v2).
Proof.
  intros Hc Hi Hp1 Hv1 Hp2 Hv2.
  rewrite (bind_run _ _ _ _ _ (add_customer_live c i p1 v1 w Hc Hi Hp1 Hv1)).
  rewrite (bind_run _ _ _ _ _ (add_customer_live c i p2 v2 _ Hc Hi Hp2 Hv2)).
  match goal with
  | |- context [ltv_service.get_ltv_by_id c i ?w1] =>
      destruct (get_ltv_by_id_live c i w1 Hc Hi) as (w2 & -> & _)
  end.
  cbn. unfold LookupByID. rewrite store_get_put_eq. cbn.
  by rewrite (proj2 (Z.ltb_ge v2 0)).
Qed.

Lemma last_write_wins_witness :
  fst ((@ltv_service.add_customer default_environ live_client 1 "555-0100" 10 ;;
        @ltv_service.add_customer default_environ live_client 1 "555-0100" 20 ;;
        @ltv_service.get_ltv_by_id default_environ live_client 1) anomalous_world)
    = Return (Some 20).
Proof.
  apply (@last_write_wins default_environ live_client 1 "555-0100" 10 "555-0100" 20
           anomalous_world).
  - reflexivity.
  - lia.
  - exact valid_phone_555_0100.
  - lia.
  - exact valid_phone_555_0100.
  - lia.
Defined.

(** X14.  A write for one id does not change what a read by another id
    returns. *)
Theorem write_leaves_other_ids `{Environ} (c : Client) (i : Z) (p : string) (v : Z)
    (j : Z) (w : World) :
  is_live c = true -> 1 <= i -> valid_phone p -> 0 <= v -> 1 <= j -> i <> j ->
  fst ((ltv_service.add_customer c i p v ;; ltv_service.get_ltv_by_id c j) w)
    = fst (ltv_service.get_ltv_by_id c j w).
Proof.
  intros Hc Hi Hp Hv Hj Hij.
  rewrite (bind_run _ _ _ _ _ (add_customer_live c i p v w Hc Hi Hp Hv)).
  match goal with
  | |- context [ltv_service.get_ltv_by_id c j ?w1] =>
      destruct (get_ltv_by_id_live c j w1 Hc Hj) as (w2 & -> & _)
  end.
  destruct (get_ltv_by_id_live c j w Hc Hj) as (w3 & -> & _).
  cbn. unfold LookupByID. rewrite store_get_put_ne; [done|]. congruence.
Qed.

Lemma write_leaves_other_ids_witness :
  fst ((@ltv_service.add_customer default_environ live_client 2 "555-0100" 7 ;;
        @ltv_service.get_ltv_by_id default_environ live_client 1) anomalous_world)
    = fst (@ltv_service.get_ltv_by_id default_environ live_client 1 anomalous_world).
Proof.
  apply (@write_leaves_other_ids default_environ live_client 2 "555-0100" 7 1
           anomalous_world).
  - reflexivity.
  - lia.
  - exact valid_phone_555_0100.
  - lia.
  - lia.
  - lia.
Defined.

(** X15.  When the store holds one record per key and no other customer
    has the phone p, a valid write of (i, p, v) on a connected client
    followed by a read by phone p returns v. *)
Theorem round_trip_by_phone_when_owned `{Environ} (c : Client) (i : Z) (p : string)
    (v : Z) (w : World) :
  is_live c = true -> 1 <= i -> valid_phone p -> 0 <= v ->
  NoDup (store w).*1 -> phone_owned_by (store w) p i ->
  fst ((ltv_service.add_customer c i p v ;; ltv_service.get_ltv_by_phone c p) w)
    = Return (Some v).
Proof.
  intros Hc Hi Hp Hv Hnd Hown.
  rewrite (bind_run _ _ _ _ _ (add_customer_live c i p v w Hc Hi Hp Hv)).
  match goal with
  | |- context [ltv_service.get_ltv_by_phone c p ?w1] =>
      destruct (get_ltv_by_phone_live c p w1 Hc Hp) as (w2 & -> & _)
  end.
  cbn. unfold LookupByPhone. rewrite records_with_phone_put by done. cbn.
  by rewrite (proj2 (Z.ltb_ge v 0)).
Qed.

Lemma round_trip_by_phone_when_owned_witness :
  fst ((@ltv_service.add_customer default_environ live_client 7 "555-0100" 500 ;;
        @ltv_service.get_ltv_by_phone default_environ live_client "555-0100")
         anomalous_world)
    = Return (Some 500).
Proof.
  apply (@round_trip_by_phone_when_owned default_environ live_client 7 "555-0100" 500
           anomalous_world).
  - reflexivity.
  - lia.
  - exact valid_phone_555_0100.
  - lia.
  - compute_done.
  - intros kb Hkb. vm_compute in Hkb. by apply elem_of_nil in Hkb.
Defined.

(** The condition matters.  With a phone shared by two customers the
    read by phone returns the ltv of whichever record the query yields
    first; in the scan order of this store that is customer 1, not the
    customer written last. *)
Example shared_phone_returns_first_match :
  fst ((@ltv_service.add_customer default_environ live_client 1 "555-0100" 10 ;;
        @ltv_service.add_customer default_environ live_client 2 "555-0100" 20 ;;
        @ltv_service.get_ltv_by_phone default_environ live_client "555-0100") empty_world)
    = Return (Some 10).
Proof. vm_compute. reflexivity. Qed.

(** X16.  On a connected client and for valid input, a read that returns
    None has logged exactly one error, and a read that returns a value
    has logged nothing. *)
Theorem absent_results_are_logged `{Environ} (c : Client) (w : World) :
  is_live c = true ->
  (forall i, 1 <= i ->
     exists r w', ltv_service.get_ltv_by_id c i w = (Return r, w') /\
       match r with
       | Some _ => log w' = log w
       | None => exists record, log w' = (log w ++ [record])%list
       end) /\
  (forall p, valid_phone p ->
     exists r w', ltv_service.get_ltv_by_phone c p w = (Return r, w') /\
       match r with
       | Some _ => log w' = log w
       | None => exists record, log w' = (log w ++ [record])%list
       end).
Proof.
  intros Hc. destruct (handler_live c Hc) as (h & Hh & _). split.
  - intros i Hi.
    unfold ltv_service.get_ltv_by_id, ltv_service._get_ltv_by_id.
    rewrite (CustomerID_valid i Hi).
    unfold_store_calls. run. rewrite Hh. run.
    destruct (store_get (NAMESPACE, SET, i) (store w)) as [b|]; run.
    + rewrite project_ltv. destruct (bin_ltv b) as [n|]; run.
      * unfold ltv_service.LTV__init__. destruct (n <? 0); run; logged.
      * logged.
    + logged.
  - intros p Hp.
    unfold ltv_service.get_ltv_by_phone, ltv_service._get_ltv_by_phone.
    rewrite (PhoneNumber_valid p Hp).
    unfold_store_calls. run. rewrite Hh. run.
    match goal with
    | |- context [ match ?l with [] => _ | _ :: _ => _ end ] =>
        destruct l as [|[[k m] b] rest]
    end; run.
    + logged.
    + destruct (bin_ltv b) as [n|]; run.
      * unfold ltv_service.LTV__init__. destruct (n <? 0); run; logged.
      * logged.
Qed.

Lemma absent_results_are_logged_witness :
  (exists r w',
     @ltv_service.get_ltv_by_id default_environ live_client 3 anomalous_world
       = (Return r, w') /\
     match r with
     | Some _ => log w' = log anomalous_world
     | None => exists record, log w' = (log anomalous_world ++ [record])%list
     end) /\
  (exists r w',
     @ltv_service.get_ltv_by_phone default_environ live_client "555-0100" anomalous_world
       = (Return r, w') /\
     match r with
     | Some _ => log w' = log anomalous_world
     | None => exists record, log w' = (log anomalous_world ++ [record])%list
     end).
Proof.
  pose proof (@absent_results_are_logged default_environ live_client anomalous_world
                eq_refl) as [Hid Hphone].
  split.
  - apply (Hid 3). lia.
  - apply (Hphone "555-0100"). exact valid_phone_555_0100.
Defined.

(** ** Outcomes in ltv_service_api.py *)

(** X17.  In ltv_service_api.py, add_customer either returns the id it was
    given after exactly one put, or raises WrongNumberFormat,
    WrongCustomerID, WrongLTV or AerospikeClientUnavailable with the world
    as it was: its assertion never fails.  The reads never change the
    store contents and raise only their validation error or
    AerospikeClientUnavailable, with the world as it was. *)
Theorem api_outcomes `{Environ} (c : Client) (w : World) :
  (forall i p v,
     match ltv_service_api.add_customer c i p v w with
     | (Return r, w') => r = i /\ w' = after_put i p v w
     | (Raise e, w') =>
         w' = w /\
         ((exists reason, e = WrongNumberFormat reason) \/ e = WrongCustomerID i \/
          e = WrongLTV v \/ e = AerospikeClientUnavailable)
     end) /\
  (forall i,
     match ltv_service_api.get_ltv_by_id c i w with
     | (Return _, w') => store w' = store w
     | (Raise e, w') => w' = w /\ (e = WrongCustomerID i \/ e = AerospikeClientUnavailable)
     end) /\
  (forall p,
     match ltv_service_api.get_ltv_by_phone c p w with
     | (Return _, w') => store w' = store w
     | (Raise e, w') =>
         w' = w /\
         ((exists reason, e = WrongNumberFormat reason) \/ e = AerospikeClientUnavailable)
     end).
Proof.
  split; [|split].
  - intros i p v. unfold_both. unfold_store_calls.
    destruct (PhoneNumber_cases p) as [[_ ->]|[_ [reason ->]]]; run; [|eauto].
    destruct (i <? 1); run; [eauto|].
    destruct (v <? 0); run; [eauto 6|].
    destruct (handler_cases c) as [(h & _ & ->)|[_ ->]]; run; [|eauto 6].
    by rewrite Z.eqb_refl.
  - intros i. unfold_both. unfold_store_calls.
    destruct (i <? 1); run; [eauto|].
    destruct (handler_cases c) as [(h & _ & ->)|[_ ->]]; run; [|eauto].
    destruct (store_get (NAMESPACE, SET, i) (store w)) as [b|]; run; [|done].
    rewrite project_ltv. destruct (bin_ltv b) as [n|]; run; [|done].
    by destruct (n <? 0).
  - intros p. unfold_both. unfold_store_calls.
    destruct (PhoneNumber_cases p) as [[_ ->]|[_ [reason ->]]]; run; [|eauto].
    destruct (handler_cases c) as [(h & _ & ->)|[_ ->]]; run; [|eauto].
    match goal with
    | |- context [ match ?l with [] => _ | _ :: _ => _ end ] =>
        destruct l as [|[[k m] b] rest]
    end; run; [done|].
    destruct (bin_ltv b) as [n|]; run; [|done].
    by destruct (n <? 0).
Qed.

(** ** Reading the settings from the environment *)

Section text_facts.
Implicit Types (s a b ws : string) (sep ch : ascii).

Lemma append_Empty b : EmptyString ++ b = b.
Proof. reflexivity. Qed.

Lemma append_String ch a b : String ch a ++ b = String ch (a ++ b).
Proof. reflexivity. Qed.

Lemma chars_append a b : chars (a ++ b) = (chars a ++ chars b)%list.
Proof.
  unfold chars. induction a as [|c a IH]; [done|].
  rewrite append_String. cbn [list_ascii_of_string app]. by rewrite IH.
Qed.

Lemma lacks_cons sep ch s : lacks sep (String ch s) <-> ch <> sep /\ lacks sep s.
Proof. unfold lacks, chars. cbn. tauto. Qed.

Lemma lacks_append sep a b : lacks sep (a ++ b) <-> lacks sep a /\ lacks sep b.
Proof. unfold lacks. rewrite chars_append, in_app_iff. tauto. Qed.

Lemma all_space_cons ch s : all_space (String ch s) -> char_isspace ch = true /\ all_space s.
Proof.
  intros Hs. split; [apply Hs; unfold chars; cbn; by left|].
  intros c Hin. apply Hs. unfold chars in *. cbn. by right.
Qed.

(** A string without the separator is one piece. *)
Lemma str_split_lacks sep s : lacks sep s -> str_split sep s = [s].
Proof.
  induction s as [|ch s IH]; intros Hs; cbn; [done|].
  apply lacks_cons in Hs as [Hch Hs].
  rewrite decide_False by done. by rewrite IH.
Qed.

Lemma str_split_append_sep sep a b :
  lacks sep a -> str_split sep (a ++ String sep b) = a :: str_split sep b.
Proof.
  induction a as [|ch a IH]; intros Ha.
  - rewrite append_Empty. cbn. by rewrite decide_True.
  - apply lacks_cons in Ha as [Hch Ha].
    rewrite append_String. cbn. rewrite decide_False by done. by rewrite IH.
Qed.

(** There is always a first piece, made of characters of the string. *)
Lemma str_split_head sep s :
  exists first rest, str_split sep s = first :: rest /\
                     forall ch, In ch (chars first) -> In ch (chars s).
Proof.
  induction s as [|c s (first & rest & IH & Hsub)]; cbn.
  - by exists EmptyString, [].
  - destruct (decide (c = sep)).
    + exists EmptyString, (str_split sep s). split; [done|]. intros ch [].
    + rewrite IH. exists (String c first), rest. split; [done|].
      unfold chars. cbn. intros ch [->|Hin]; [by left | right; by apply Hsub].
Qed.

(** Splitting undoes joining, for pieces without the separator. *)
Lemma str_split_concat sep (pieces : list string) :
  pieces <> [] -> (forall piece, piece ∈ pieces -> lacks sep piece) ->
  str_split sep (String.concat (String sep EmptyString) pieces) = pieces.
Proof.
  induction pieces as [|piece pieces IH]; intros Hne Hall; [done|].
  assert (Hpiece : lacks sep piece) by (apply Hall; left).
  destruct pieces as [|next pieces].
  - cbn. by apply str_split_lacks.
  - cbn [String.concat]. rewrite append_String, append_Empty.
    rewrite str_split_append_sep by done. f_equal.
    apply IH; [done|]. intros p Hp. apply Hall. by right.
Qed.

Lemma str_lstrip_all_space ws : all_space ws -> str_lstrip ws = EmptyString.
Proof.
  induction ws as [|c ws IH]; intros Hws; cbn; [done|].
  apply all_space_cons in Hws as [-> Hws]. by apply IH.
Qed.

Lemma str_lstrip_spaces ws s : all_space ws -> str_lstrip (ws ++ s) = str_lstrip s.
Proof.
  induction ws as [|c ws IH]; intros Hws; [done|].
  apply all_space_cons in Hws as [Hc Hws].
  rewrite append_String. cbn. rewrite Hc. by apply IH.
Qed.

Lemma str_rstrip_all_space ws : all_space ws -> str_rstrip ws = EmptyString.
Proof.
  induction ws as [|c ws IH]; intros Hws; cbn; [done|].
  apply all_space_cons in Hws as [-> Hws]. by rewrite IH.
Qed.

Lemma str_rstrip_spaces s ws : all_space ws -> str_rstrip (s ++ ws) = str_rstrip s.
Proof.
  intros Hws. induction s as [|c s IH].
  - by apply str_rstrip_all_space.
  - rewrite append_String. cbn. by rewrite IH.
Qed.

(** Whitespace around a text does not survive [strip]. *)
Lemma str_strip_spaces ws s ws' :
  all_space ws -> all_space ws' -> str_strip (ws ++ s ++ ws') = str_strip s.
Proof.
  intros Hws Hws'. unfold str_strip. rewrite str_lstrip_spaces by done.
  induction s as [|c s IH].
  - rewrite append_Empty. by rewrite str_lstrip_all_space.
  - rewrite append_String. cbn. destruct (char_isspace c); [done|].
    rewrite <- append_String. by apply str_rstrip_spaces.
Qed.

Lemma getenv_set (environ : gmap string string) key default_ value :
  environ !! key = Some value -> getenv environ key default_ = value.
Proof. intros Hk. unfold getenv. by rewrite Hk. Qed.

Lemma str_strip_getenv_spaces (environ : gmap string string) name ws value ws'
    key default_ :
  all_space ws -> all_space ws' ->
  str_strip (getenv (<[name := ws ++ value ++ ws']> environ) key default_)
    = str_strip (getenv (<[name := value]> environ) key default_).
Proof.
  intros Hws Hws'. unfold getenv. destruct (decide (name = key)) as [->|Hne].
  - rewrite !lookup_insert_eq. cbn. by apply str_strip_spaces.
  - by rewrite !lookup_insert_ne.
Qed.
End text_facts.

Section settings_facts.
Variable int : string -> option Z.
Import ltv_service.
Implicit Types (environ : gmap string string) (entries : list host_text).

Lemma host_entry_no_colon h : lacks ":" h -> host_entry int h = inl IndexError.
Proof. intros Hh. unfold host_entry. by rewrite str_split_lacks. Qed.

Lemma host_entry_well_formed (host port_text : string) (port : Z) :
  lacks ":" host -> lacks ":" port_text -> int port_text = Some port ->
  host_entry int (host ++ ":" ++ port_text) = inr (host, port).
Proof.
  intros Hhost Hport Hint. unfold host_entry.
  change (":" ++ port_text) with (String ":" port_text).
  rewrite str_split_append_sep by done. rewrite (str_split_lacks _ _ Hport).
  cbn. by rewrite Hint.
Qed.

Lemma host_entries_well_formed entries :
  (forall entry, entry ∈ entries -> well_formed_entry int entry) ->
  host_entries int (map (fun entry => entry.1.1 ++ ":" ++ entry.2) entries)
    = inr entries.*1.
Proof.
  induction entries as [|[[host port] port_text] entries IH]; intros Hall; [done|].
  destruct (Hall (host, port, port_text) ltac:(left)) as (_ & Hh & _ & Hp & Hport).
  cbn [fst snd] in Hh, Hp, Hport.
  cbn [map host_entries fst snd].
  rewrite (host_entry_well_formed host port_text port) by done.
  rewrite IH by (intros entry Hin; apply Hall; by right).
  done.
Qed.
End settings_facts.

Ltac solve_lacks := unfold lacks, chars; vm_compute; intuition discriminate.

(** X18.  When the host list of the environment, stripped, contains no
    colon at all (an empty LTV_SERVICE_HOSTS, or a bare host name),
    get_client_settings raises IndexError, whatever the timeout is and
    before int is ever asked. *)
Theorem settings_host_without_colon (int : string -> option Z)
    (environ : gmap string string) :
  lacks ":" (str_strip (getenv environ "LTV_SERVICE_HOSTS" "127.0.0.1:3000")) ->
  ltv_service.get_client_settings int environ = inl IndexError /\
  ltv_service_api.get_client_settings int environ = inl IndexError.
Proof.
  intros Hlacks.
  assert (Hs : ltv_service.get_client_settings int environ = inl IndexError).
  { unfold ltv_service.get_client_settings.
    destruct (str_split_head ","
                (str_strip (getenv environ "LTV_SERVICE_HOSTS" "127.0.0.1:3000")))
      as (first & rest & -> & Hsub).
    cbn [ltv_service.host_entries]. rewrite host_entry_no_colon; [done|].
    intros Hin. apply Hlacks. by apply Hsub. }
  split; [exact Hs | exact Hs].
Qed.

Lemma settings_host_without_colon_witness :
  ltv_service.get_client_settings sample_int {["LTV_SERVICE_HOSTS" := "localhost"]}
    = inl IndexError /\
  ltv_service_api.get_client_settings sample_int {["LTV_SERVICE_HOSTS" := "localhost"]}
    = inl IndexError.
Proof.
  apply (settings_host_without_colon sample_int {["LTV_SERVICE_HOSTS" := "localhost"]}).
  solve_lacks.
Defined.

(** X19.  Reading back a host list: when LTV_SERVICE_HOSTS is the
    comma-joined text of one or more entries host:port, written without
    stray commas, colons or surrounding whitespace, and int reads each
    port text and the timeout, get_client_settings returns exactly those
    hosts and ports, in order, with the timeout under policies. *)
Theorem settings_round_trip (int : string -> option Z) (environ : gmap string string)
    (entries : list host_text) (timeout : Z) :
  entries <> [] ->
  (forall entry, entry ∈ entries -> well_formed_entry int entry) ->
  trimmed (host_list_text entries) ->
  environ !! "LTV_SERVICE_HOSTS" = Some (host_list_text entries) ->
  int (str_strip (getenv environ "LTV_SERVICE_TIMEOUT" "1000")) = Some timeout ->
  ltv_service.get_client_settings int environ
    = inr (<["policies" := PyPolicies [("timeout", timeout)]]>
             (<["hosts" := PyHosts entries.*1]> ∅)).
Proof.
  intros Hne Hall Htrim Henv Htimeout. unfold ltv_service.get_client_settings.
  rewrite (getenv_set _ _ _ _ Henv). rewrite Htrim.
  unfold host_list_text. rewrite str_split_concat.
  - rewrite host_entries_well_formed by done. by rewrite Htimeout.
  - by destruct entries.
  - intros piece [entry [-> Hin]]%list_elem_of_fmap.
    destruct (Hall entry Hin) as (Hh & _ & Hp & _).
    apply lacks_append. split; [done|].
    change (":" ++ entry.2) with (String ":" entry.2).
    apply lacks_cons. split; [done|]. done.
Qed.

Lemma settings_round_trip_witness :
  let entries : list host_text :=
    [(("127.0.0.1", 3000), "3000"); (("10.0.0.2", 3001), "3001")] in
  ltv_service.get_client_settings sample_int
      {["LTV_SERVICE_HOSTS" := host_list_text entries]}
    = inr (<["policies" := PyPolicies [("timeout", 1000)]]>
             (<["hosts" := PyHosts [("127.0.0.1", 3000); ("10.0.0.2", 3001)]]> ∅)).
Proof.
  intros entries.
  apply (settings_round_trip sample_int {["LTV_SERVICE_HOSTS" := host_list_text entries]}
           entries 1000).
  - discriminate.
  - intros entry Hin.
    apply elem_of_cons in Hin as [->|Hin];
      [|apply list_elem_of_singleton in Hin; subst entry];
      (split; [solve_lacks|]; split; [solve_lacks|]; split; [solve_lacks|];
       split; [solve_lacks | reflexivity]).
  - reflexivity.
  - reflexivity.
  - reflexivity.
Defined.

(** X20.  Whitespace around the value of an environment variable changes
    nothing: the settings and the constants NAMESPACE and SET are the
    same with and without it. *)
Theorem settings_ignore_surrounding_space (int : string -> option Z)
    (environ : gmap string string) (name ws value ws' : string) :
  all_space ws -> all_space ws' ->
  ltv_service.get_client_settings int (<[name := ws ++ value ++ ws']> environ)
    = ltv_service.get_client_settings int (<[name := value]> environ) /\
  ltv_service.module_constants (<[name := ws ++ value ++ ws']> environ)
    = ltv_service.module_constants (<[name := value]> environ).
Proof.
  intros Hws Hws'.
  unfold ltv_service.get_client_settings, ltv_service.module_constants.
  by rewrite !(str_strip_getenv_spaces environ name ws value ws').
Qed.

Lemma settings_ignore_surrounding_space_witness :
  ltv_service.get_client_settings sample_int (<["LTV_SERVICE_SET" := " " ++ "vip" ++ "  "]> ∅)
    = ltv_service.get_client_settings sample_int (<["LTV_SERVICE_SET" := "vip"]> ∅) /\
  ltv_service.module_constants (<["LTV_SERVICE_SET" := " " ++ "vip" ++ "  "]> ∅)
    = ltv_service.module_constants (<["LTV_SERVICE_SET" := "vip"]> ∅).
Proof.
  apply (settings_ignore_surrounding_space sample_int ∅ "LTV_SERVICE_SET" " " "vip" "  ").
  - intros ch Hin. vm_compute in Hin. destruct Hin as [<-|[]]. reflexivity.
  - intros ch Hin. vm_compute in Hin. destruct Hin as [<-|[<-|[]]]; reflexivity.
Defined.

(** X21.  A client built on the settings that get_client_settings returns
    already has its hosts and its policies: with_option for either name
    raises ClientOptionExists, in both files. *)
Theorem settings_client_has_hosts_and_policies (int : string -> option Z)
    (environ : gmap string string) (config : gmap string Any) (value : Any) :
  ltv_service.get_client_settings int environ = inr config ->
  (ltv_service.with_option "hosts" value (ltv_service.Client__init__ config)
     = (Raise (ClientOptionExists "hosts"), ltv_service.Client__init__ config) /\
   ltv_service.with_option "policies" value (ltv_service.Client__init__ config)
     = (Raise (ClientOptionExists "policies"), ltv_service.Client__init__ config)) /\
  (ltv_service_api.with_option "hosts" value (ltv_service_api.Client__init__ config)
     = (Raise (ClientOptionExists "hosts"), ltv_service_api.Client__init__ config) /\
   ltv_service_api.with_option "policies" value (ltv_service_api.Client__init__ config)
     = (Raise (ClientOptionExists "policies"), ltv_service_api.Client__init__ config)).
Proof.
  unfold ltv_service.get_client_settings. intros Hsettings.
  destruct (ltv_service.host_entries int _) as [e|hosts]; [done|].
  destruct (int _) as [timeout|]; [|done].
  injection Hsettings as <-.
  assert (Hhosts : forall cfg : gmap string Any,
            is_Some ((<["policies" := PyPolicies [("timeout", timeout)]]>
                        (<["hosts" := PyHosts hosts]> cfg)) !! "hosts")).
  { intros cfg. rewrite lookup_insert_ne by done. rewrite lookup_insert_eq. eauto. }
  assert (Hpolicies : forall cfg : gmap string Any,
            is_Some ((<["policies" := PyPolicies [("timeout", timeout)]]>
                        (<["hosts" := PyHosts hosts]> cfg)) !! "policies")).
  { intros cfg. rewrite lookup_insert_eq. eauto. }
  split; split.
  - by apply with_option_present.
  - by apply with_option_present.
  - exact (with_option_present (ltv_service_api.Client__init__ _) "hosts" value
             (Hhosts ∅)).
  - exact (with_option_present (ltv_service_api.Client__init__ _) "policies" value
             (Hpolicies ∅)).
Qed.

Lemma settings_client_has_hosts_and_policies_witness :
  let config : gmap string Any :=
    <["policies" := PyPolicies [("timeout", 1000)]]>
      (<["hosts" := PyHosts [("127.0.0.1", 3000)]]> ∅) in
  (ltv_service.with_option "hosts" hosts_option (ltv_service.Client__init__ config)
     = (Raise (ClientOptionExists "hosts"), ltv_service.Client__init__ config) /\
   ltv_service.with_option "policies" hosts_option (ltv_service.Client__init__ config)
     = (Raise (ClientOptionExists "policies"), ltv_service.Client__init__ config)) /\
  (ltv_service_api.with_option "hosts" hosts_option (ltv_service_api.Client__init__ config)
     = (Raise (ClientOptionExists "hosts"), ltv_service_api.Client__init__ config) /\
   ltv_service_api.with_option "policies" hosts_option (ltv_service_api.Client__init__ config)
     = (Raise (ClientOptionExists "policies"), ltv_service_api.Client__init__ config)).
Proof.
  intros config.
  apply (settings_client_has_hosts_and_policies sample_int ∅ config hosts_option).
  reflexivity.
Defined.

(** ** Closing again *)

(** X22.  In both files, on a client that holds a handle, connected or
    not, close returns, leaves the configuration alone and the handle
    closed, and a second close returns as well and changes nothing more. *)
Theorem close_is_idempotent_with_handle (c : Client) :
  _client c <> None ->
  (ltv_service.close c = (Return tt, closed_of c) /\
   ltv_service.close (closed_of c) = (Return tt, closed_of c)) /\
  (ltv_service_api.close c = (Return tt, closed_of c) /\
   ltv_service_api.close (closed_of c) = (Return tt, closed_of c)).
Proof.
  intros Hc.
  assert (Hclosed : dropped (closed_of c)) by (by eexists).
  destruct (close_dropped (closed_of c) Hclosed) as [Hs2 Ha2].
  destruct (is_live c) eqn:Hlive.
  - destruct (close_live c Hlive) as [Hs Ha]. done.
  - apply is_live_false in Hlive as [Hn|Hd]; [done|].
    destruct (close_dropped c Hd) as [Hs Ha].
    assert (Heq : closed_of c = c).
    { destruct Hd as ([[]] & Hh & Hconn); cbn in Hconn; [done|].
      destruct c as [cfg cl]. cbn in Hh. subst cl. done. }
    rewrite Heq in *. done.
Qed.

Lemma close_is_idempotent_with_handle_witness :
  (ltv_service.close live_client = (Return tt, closed_of live_client) /\
   ltv_service.close (closed_of live_client) = (Return tt, closed_of live_client)) /\
  (ltv_service_api.close live_client = (Return tt, closed_of live_client) /\
   ltv_service_api.close (closed_of live_client) = (Return tt, closed_of live_client)).
Proof. apply (close_is_idempotent_with_handle live_client). discriminate. Defined.
